(** * bake-action: orchestration of [docker buildx bake] (src/main.ts)

    A shallow embedding of the two callbacks handed to [actionsToolkit.run]
    (the main phase and the post phase) and of the helper [buildRefs].
    Calls that leave the file (the toolkit, [@actions/core], the file
    system, the clock) are answered by a [World] record; every such call is
    written to a trace, so that ordering properties of the orchestration can
    be stated on the trace. *)

From Stdlib Require Import String Ascii List NArith ZArith Bool Lia.
Import ListNotations.

Set Implicit Arguments.

(** ** JavaScript strings

    A JavaScript string is a sequence of UTF-16 code units.  The regular
    expression of main.ts has no [u] flag, so it works on code units too. *)

Module JS.

Definition char16 := N.
Definition jsstring := list char16.

(** An ASCII literal as a JavaScript string. *)
Definition js (s : string) : jsstring :=
  map N_of_ascii (list_ascii_of_string s).

Definition jsstring_eq_dec : forall a b : jsstring, {a = b} + {a <> b} :=
  list_eq_dec N.eq_dec.

Definition jseqb (a b : jsstring) : bool :=
  if jsstring_eq_dec a b then true else false.

(** ECMAScript LineTerminator: LF, CR, LS, PS. *)
Definition is_line_terminator (c : char16) : bool :=
  ((c =? 10) || (c =? 13) || (c =? 8232) || (c =? 8233))%N.

(** ECMAScript WhiteSpace: TAB, VT, FF, SP, NBSP, ZWNBSP and category Zs. *)
Definition is_white_space (c : char16) : bool :=
  ((c =? 9) || (c =? 11) || (c =? 12) || (c =? 32) || (c =? 160)
   || (c =? 5760) || ((8192 <=? c) && (c <=? 8202))
   || (c =? 8239) || (c =? 8287) || (c =? 12288) || (c =? 65279))%N.

(** The class [\s] and the characters removed by [trim]. *)
Definition is_space (c : char16) : bool :=
  is_white_space c || is_line_terminator c.

(** The class [.] without the [s] flag. *)
Definition is_dot (c : char16) : bool := negb (is_line_terminator c).

Fixpoint drop_while (p : char16 -> bool) (s : jsstring) : jsstring :=
  match s with
  | [] => []
  | c :: s' => if p c then drop_while p s' else s
  end.

Definition trimStart (s : jsstring) : jsstring := drop_while is_space s.
Definition trimEnd (s : jsstring) : jsstring :=
  rev (drop_while is_space (rev s)).

(** [String.prototype.trim] *)
Definition trim (s : jsstring) : jsstring := trimEnd (trimStart s).

(** *** A backtracking matcher for the patterns main.ts uses

    A pattern is a sequence of terms; a term is a greedy star over a
    character class, or the assertion [$] (end of input, no [m] flag).
    Capture groups do not change what is matched and only element [0] of
    the match is read, so groups are not represented. *)

Inductive term :=
| TStar (cls : char16 -> bool)
| TEnd.

Definition pattern := list term.

(** [match_here p s] matches [p] at the start of [s] and gives the matched
    text.  A star first takes as many characters as it can and gives them
    back one at a time while the rest of the pattern fails. *)
Fixpoint match_here (p : pattern) : jsstring -> option jsstring :=
  match p with
  | [] => fun _ => Some []
  | TEnd :: p' =>
      fun s => match s with
               | [] => match_here p' []
               | _ :: _ => None
               end
  | TStar cls :: p' =>
      fix star (s : jsstring) : option jsstring :=
        match s with
        | [] => match_here p' []
        | c :: s' =>
            if cls c then
              match star s' with
              | Some m => Some (c :: m)
              | None => match_here p' s
              end
            else match_here p' s
        end
  end.

(** [RegExp.prototype.exec] from index 0 without the [g] flag: the first
    start position at which the pattern matches wins.  The result is
    element [0] of the match array, [None] stands for [null]. *)
Fixpoint regexp_exec (p : pattern) (s : jsstring) : option jsstring :=
  match match_here p s with
  | Some m => Some m
  | None =>
      match s with
      | [] => None
      | _ :: s' => regexp_exec p s'
      end
  end.

(** [s.match(re)?.[0]] *)
Definition String_match (s : jsstring) (p : pattern) : option jsstring :=
  regexp_exec p s.

End JS.
Import JS.

(** The regular expression literal of main.ts line 139: a capture group
    holding a greedy dot-star, then a greedy star over the class of
    white space, then the end-of-input assertion. *)
Definition last_line_re : pattern := [TStar is_dot; TStar is_space; TEnd].

(** ** Data read by main.ts *)

(** A JavaScript object used as a map: its own enumerable properties in
    enumeration order, and the enumerable keys it inherits. *)
Record object (V : Type) := {
  own_properties : list (jsstring * V);
  proto_keys : list jsstring
}.

Definition hasOwnProperty {V} (o : object V) (k : jsstring) : bool :=
  existsb (jseqb k) (map fst (own_properties o)).

(** The keys a [for (const k in o)] loop visits: own keys, then inherited
    keys that no own key shadows. *)
Definition for_in_keys {V} (o : object V) : list jsstring :=
  map fst (own_properties o)
  ++ filter (fun k => negb (hasOwnProperty o k)) (proto_keys o).

(** [o[k] = v] on the list of own properties. *)
Fixpoint obj_set {V} (o : list (jsstring * V)) (k : jsstring) (v : V)
  : list (jsstring * V) :=
  match o with
  | [] => [(k, v)]
  | (k', v') :: o' =>
      if jseqb k' k then (k', v) :: o' else (k', v') :: obj_set o' k v
  end.

Fixpoint obj_get {V} (o : list (jsstring * V)) (k : jsstring) : option V :=
  match o with
  | [] => None
  | (k', v) :: o' => if jseqb k' k then Some v else obj_get o' k
  end.

(** [Object.assign(target, source)] on own properties. *)
Definition obj_assign {V} (target source : list (jsstring * V))
  : list (jsstring * V) :=
  fold_left (fun o kv => obj_set o (fst kv) (snd kv)) source target.

Definition Env := list (jsstring * jsstring).

(** Modelled from the spec: the declaration of [Inputs] is in context.ts,
    which is not part of the sources at hand.  Spec section 3 lists: target
    files, override expressions, target-name selectors, boolean flags
    (no-cache, push, load), provenance and sbom settings, source reference,
    working directory, builder name, credential token.  The builder name is
    optional, as the signature of [buildRefs] has it. *)
Record Inputs := {
  builder : option jsstring;
  files : list jsstring;
  load : bool;
  no_cache : bool;
  set : list jsstring;
  provenance : jsstring;
  push : bool;
  sbom : jsstring;
  source : jsstring;
  targets : list jsstring;
  workdir : jsstring;
  github_token : jsstring
}.

(** The descriptor returned by [toolkit.builder.inspect]; main.ts reads
    [name] and [driver]. *)
Record BuilderInfo := {
  name : jsstring;
  driver : jsstring
}.

(** Documents that main.ts only passes on are kept as their text. *)
Record BakeDefinition := { definition_text : jsstring }.
Record Metadata := { metadata_text : jsstring }.

(** [ConfigFile.proxies]: host to (key to value). *)
Record ConfigFile := {
  proxies : option (list (jsstring * list (jsstring * jsstring)))
}.

Record Command := {
  command : jsstring;
  args : list jsstring
}.

Record ExecOptions := {
  cwd : jsstring;
  env : Env;
  ignoreReturnCode : bool
}.

Record ExecOutput := {
  exitCode : Z;
  stdout : jsstring;
  stderr : jsstring
}.

(** The first argument of [toolkit.buildxBake.getDefinition] (lines 95-106). *)
Record BakeCmdOpts := {
  opt_files : list jsstring;
  opt_load : bool;
  opt_noCache : bool;
  opt_overrides : list jsstring;
  opt_provenance : jsstring;
  opt_push : bool;
  opt_sbom : jsstring;
  opt_source : jsstring;
  opt_targets : list jsstring;
  opt_githubToken : jsstring
}.

(** A record of the build engine's history store. *)
Record LocalRef := {
  ref_id : jsstring;
  ref_builder : jsstring;
  ref_created : Z
}.

Record ExportRes := {
  dockerbuildFilename : jsstring;
  dockerbuildSize : Z
}.

Record UploadRes := {
  upload_id : Z;
  upload_url : jsstring
}.

Record SummaryOpts := {
  sum_exportRes : ExportRes;
  sum_uploadRes : UploadRes;
  sum_inputs : option Inputs;
  sum_bakeDefinition : option BakeDefinition
}.

Inductive json_value :=
| JInputs (i : Inputs)
| JBuilder (b : BuilderInfo)
| JMetadata (m : Metadata).

(** ** Effects *)

(** The calls that leave main.ts, with the arguments main.ts passes. *)
Inductive call :=
| NewDate
| GetInputs
| PrintActionsRuntimeTokenACs
| DockerPrintVersion
| DockerPrintInfo
| DockerConfigFile
| BuildxIsAvailable
| ContextTmpDir
| BuildxPrintVersion
| BuilderInspect (builderName : option jsstring)
| GetDefinition (opts : BakeCmdOpts) (dir : jsstring)
| GetArgs (i : Inputs) (d : BakeDefinition)
| GetCommand (a : list jsstring)
| ExecExec (cmd : jsstring) (a : list jsstring) (o : ExecOptions)
| ExecGetExecOutput (cmd : jsstring) (a : list jsstring) (o : ExecOptions)
| ResolveMetadata
| ResolveRefs
| BuildxRefs (builderName : jsstring) (since : Z)
| ParseBool (s : jsstring)
| HistoryExport (refs : list jsstring)
| UploadArtifact (filename mimeType : jsstring) (retentionDays : Z)
| WriteBuildSummary (o : SummaryOpts)
| RmSync (dir : jsstring) (recursive : bool).

(** What [stateHelper]'s setters save for the post phase. *)
Inductive state_write :=
| SetInputs (i : Inputs)
| SetTmpDir (d : jsstring)
| SetBuilder (b : BuilderInfo)
| SetBakeDefinition (d : BakeDefinition)
| SetBuildRefs (refs : list jsstring).

Inductive event :=
| Call (c : call)
| Debug (m : jsstring)
| Info (m : jsstring)
| Warning (m : jsstring)
| SetFailed (m : jsstring)
| SetOutput (key value : jsstring)
| StartGroup (title : jsstring)
| EndGroup
| SaveState (s : state_write).

Definition trace := list event.

(** Where an [Error] object was created (what its [stack] tells): in a
    callee, or at a line of main.ts. *)
Inductive origin :=
| ByCall (c : call)
| ByMain (line : nat).

Record Error := {
  message : jsstring;
  thrown_by : origin
}.

(** How the world answers a call: the promise resolves, or it rejects (for
    a synchronous call: it returns, or it throws) with a message. *)
Inductive outcome (A : Type) :=
| Resolves (a : A)
| Rejects (msg : jsstring).
Arguments Rejects {A} msg.

Inductive result (A : Type) :=
| Ok (a : A)
| Throw (e : Error).
Arguments Throw {A} e.

(** A computation: the events it causes, in order, and how it ends. *)
Definition M (A : Type) : Type := trace * result A.

Definition ret {A} (a : A) : M A := ([], Ok a).

Definition bind {A B} (m : M A) (f : A -> M B) : M B :=
  match m with
  | (t, Ok a) => let (t', r) := f a in (t ++ t', r)
  | (t, Throw e) => (t, Throw e)
  end.

Declare Scope m_scope.
Delimit Scope m_scope with M.
Notation "x <- m ;; k" := (bind m (fun x => k))
  (at level 61, m at next level, right associativity) : m_scope.
Notation "m ;; k" := (bind m (fun _ => k))
  (at level 61, right associativity) : m_scope.
Local Open Scope m_scope.

Definition throw {A} (e : Error) : M A := ([], Throw e).

Definition emit (e : event) : M unit := ([e], Ok tt).

Definition call_ext {A} (c : call) (o : outcome A) : M A :=
  match o with
  | Resolves a => ([Call c], Ok a)
  | Rejects msg => ([Call c], Throw {| message := msg; thrown_by := ByCall c |})
  end.

(** [try { body } catch (e) { handler e }] *)
Definition try_catch {A} (body : M A) (handler : Error -> M A) : M A :=
  match body with
  | (t, Ok a) => (t, Ok a)
  | (t, Throw e) => let (t', r) := handler e in (t ++ t', r)
  end.

(** [core.group]: [startGroup], the body, and [endGroup] in a [finally]. *)
Definition group {A} (title : jsstring) (body : M A) : M A :=
  let (t, r) := body in (StartGroup title :: t ++ [EndGroup], r).

Fixpoint for_each {A} (l : list A) (body : A -> M unit) : M unit :=
  match l with
  | [] => ret tt
  | x :: l' => body x ;; for_each l' body
  end.

(** ** The world of the main phase *)

Record World := {
  now : Z;
  process_env : Env;
  JSON_stringify : json_value -> N -> jsstring;
  getInputs : outcome Inputs;
  printActionsRuntimeTokenACs : outcome unit;
  docker_printVersion : outcome unit;
  docker_printInfo : outcome unit;
  docker_configFile : outcome (option ConfigFile);
  (** [path.join(Docker.configDir, 'config.json')] *)
  docker_config_path : jsstring;
  buildx_isAvailable : outcome bool;
  context_tmpDir : jsstring;
  buildx_printVersion : outcome unit;
  (** [toolkit.builder.inspect(inputs.builder)], line 87 *)
  builder_inspect : outcome BuilderInfo;
  (** [toolkit.builder.inspect()], line 216 *)
  builder_inspect_default : outcome BuilderInfo;
  getDefinition : outcome (option BakeDefinition);
  getArgs : outcome (list jsstring);
  getCommand : outcome Command;
  (** what the build engine does in the print pass and in the execution
      pass: it cannot be started, or it runs and exits *)
  process_print : outcome ExecOutput;
  process_bake : outcome ExecOutput;
  (** the text of the rejection for a tool that exits with a code *)
  exit_code_message : jsstring -> Z -> jsstring;
  resolveMetadata : outcome (option Metadata);
  resolveRefs : outcome (option (list jsstring));
  (** the build engine's history store, [Buildx.refsDir] *)
  refs_store : list LocalRef
}.

(** The same world with another history store. *)
Definition with_store (w : World) (store : list LocalRef) : World :=
  {| now := now w;
     process_env := process_env w;
     JSON_stringify := JSON_stringify w;
     getInputs := getInputs w;
     printActionsRuntimeTokenACs := printActionsRuntimeTokenACs w;
     docker_printVersion := docker_printVersion w;
     docker_printInfo := docker_printInfo w;
     docker_configFile := docker_configFile w;
     docker_config_path := docker_config_path w;
     buildx_isAvailable := buildx_isAvailable w;
     context_tmpDir := context_tmpDir w;
     buildx_printVersion := buildx_printVersion w;
     builder_inspect := builder_inspect w;
     builder_inspect_default := builder_inspect_default w;
     getDefinition := getDefinition w;
     getArgs := getArgs w;
     getCommand := getCommand w;
     process_print := process_print w;
     process_bake := process_bake w;
     exit_code_message := exit_code_message w;
     resolveMetadata := resolveMetadata w;
     resolveRefs := resolveRefs w;
     refs_store := store |}.

(** Modelled from the spec: [Exec.exec] and [Exec.getExecOutput] belong to
    the toolkit.  Spec 4.3: in the print pass any non-zero exit is a hard
    failure; the execution pass, which sets [ignoreReturnCode], does not
    treat a non-zero exit code alone as a failure. *)
Definition exec_outcome (w : World) (cmd : jsstring) (o : ExecOptions)
  (p : outcome ExecOutput) : outcome ExecOutput :=
  match p with
  | Resolves out =>
      if negb (ignoreReturnCode o) && negb (exitCode out =? 0)%Z
      then Rejects (exit_code_message w cmd (exitCode out))
      else Resolves out
  | Rejects msg => Rejects msg
  end.

(** Modelled from the spec: [Buildx.refs] belongs to the toolkit.  Spec 4.4
    and 6: the history store is queried for all records whose builder
    matches and whose creation time is at or after [since]; the result maps
    each record identifier to its record. *)
Definition Buildx_refs (store : list LocalRef) (builderName : jsstring)
  (since : Z) : object LocalRef :=
  {| own_properties :=
       fold_left
         (fun o r =>
            if jseqb (ref_builder r) builderName && (since <=? ref_created r)%Z
            then obj_set o (ref_id r) r
            else o)
         store [];
     proto_keys := [] |}.

(** ** The main phase (lines 23-165) *)

Definition getenv (e : Env) (k : string) : option jsstring := obj_get e (js k).

(** [a ?? b] *)
Definition nullish {A} (a : option A) (b : A) : A :=
  match a with Some x => x | None => b end.

(** Truthiness of an optional string: [undefined] and the empty string are
    falsy. *)
Definition truthy_string (s : option jsstring) : bool :=
  match s with
  | Some (_ :: _) => true
  | _ => false
  end.

(** Lines 33-39. *)
Definition runtime_token_acs (w : World) : M unit :=
  group (js "GitHub Actions runtime token ACs")
    (try_catch
       (call_ext PrintActionsRuntimeTokenACs (printActionsRuntimeTokenACs w))
       (fun e => emit (Warning (message e)))).

(** Lines 41-48. *)
Definition docker_info (w : World) : M unit :=
  group (js "Docker info")
    (try_catch
       (call_ext DockerPrintVersion (docker_printVersion w) ;;
        call_ext DockerPrintInfo (docker_printInfo w))
       (fun e => emit (Info (message e)))).

(** Lines 50-73.  The first component of the pair is [dockerConfig], the
    second [dockerConfigMalformed]. *)
Definition proxy_configuration (w : World) : M unit :=
  group (js "Proxy configuration")
    (cfg <- try_catch
              (c <- call_ext DockerConfigFile (docker_configFile w) ;;
               ret (c, false))
              (fun e =>
                 emit (Warning (js "Unable to parse config file "
                                ++ docker_config_path w ++ js ": "
                                ++ js "Error: " ++ message e)) ;;
                 ret (None, true)) ;;
     match fst cfg with
     | Some {| proxies := Some hosts |} =>
         for_each hosts (fun host =>
           let many := (1 <? length hosts)%nat in
           (if many then emit (Info (fst host)) else ret tt) ;;
           for_each (snd host) (fun kv =>
             emit (Info ((if many then js "  " else [])
                         ++ fst kv ++ js ": " ++ snd kv))))
     | _ =>
         if negb (snd cfg) then emit (Info (js "No proxy configuration found"))
         else ret tt
     end).

(** What lines 80-123 leave for the two passes. *)
Record Prepared := {
  buildCmd : Command;
  buildEnv : Env
}.

(** Lines 80-123. *)
Definition prepare (w : World) (inputs : Inputs) (gitAuthToken : jsstring)
  : M Prepared :=
  tmp <- call_ext ContextTmpDir (Resolves (context_tmpDir w)) ;;
  emit (SaveState (SetTmpDir tmp)) ;;
  group (js "Buildx version")
    (call_ext BuildxPrintVersion (buildx_printVersion w)) ;;
  group (js "Builder info")
    (b <- call_ext (BuilderInspect (builder inputs)) (builder_inspect w) ;;
     emit (Info (JSON_stringify w (JBuilder b) 2)) ;;
     emit (SaveState (SetBuilder b))) ;;
  definition <-
    group (js "Parsing raw definition")
      (call_ext
         (GetDefinition
            {| opt_files := files inputs;
               opt_load := load inputs;
               opt_noCache := no_cache inputs;
               opt_overrides := set inputs;
               opt_provenance := provenance inputs;
               opt_push := push inputs;
               opt_sbom := sbom inputs;
               opt_source := source inputs;
               opt_targets := targets inputs;
               opt_githubToken := gitAuthToken |}
            (workdir inputs))
         (getDefinition w)) ;;
  match definition with
  | None =>
      throw {| message := js "Bake definition not set";
               thrown_by := ByMain 113 |}
  | Some d =>
      emit (SaveState (SetBakeDefinition d)) ;;
      a <- call_ext (GetArgs inputs d) (getArgs w) ;;
      cmd <- call_ext (GetCommand a) (getCommand w) ;;
      ret {| buildCmd := cmd;
             buildEnv :=
               obj_assign (obj_assign [] (process_env w))
                 [(js "BUILDX_BAKE_GIT_AUTH_TOKEN", gitAuthToken)] |}
  end.

Definition print_call (inputs : Inputs) (p : Prepared) : call :=
  ExecExec (command (buildCmd p)) (args (buildCmd p) ++ [js "--print"])
    {| cwd := workdir inputs; env := buildEnv p; ignoreReturnCode := false |}.

Definition bake_call (inputs : Inputs) (p : Prepared) : call :=
  ExecGetExecOutput (command (buildCmd p)) (args (buildCmd p))
    {| cwd := workdir inputs; env := buildEnv p; ignoreReturnCode := true |}.

(** Lines 125-130: the print pass. *)
Definition print_pass (w : World) (inputs : Inputs) (p : Prepared) : M unit :=
  group (js "Bake definition")
    (call_ext (print_call inputs p)
       (exec_outcome w (command (buildCmd p))
          {| cwd := workdir inputs; env := buildEnv p;
             ignoreReturnCode := false |}
          (process_print w)) ;;
     ret tt).

(** Line 139: the text after the prefix. *)
Definition stderr_detail (err_text : jsstring) : jsstring :=
  match String_match err_text last_line_re with
  | Some m => trim m
  | None => js "unknown error"
  end.

(** Lines 137-141: the [then] callback; the value it leaves in [err]. *)
Definition exec_pass_error (res : ExecOutput) : option Error :=
  if (0 <? length (stderr res))%nat && negb (exitCode res =? 0)%Z
  then Some {| message := js "buildx bake failed with: "
                          ++ stderr_detail (stderr res);
               thrown_by := ByMain 139 |}
  else None.

(** Lines 132-141: the execution pass. *)
Definition exec_pass (w : World) (inputs : Inputs) (p : Prepared)
  : M (option Error) :=
  res <- call_ext (bake_call inputs p)
           (exec_outcome w (command (buildCmd p))
              {| cwd := workdir inputs; env := buildEnv p;
                 ignoreReturnCode := true |}
              (process_bake w)) ;;
  ret (exec_pass_error res).

(** Lines 224-229: the loop over the keys of [res]. *)
Definition own_keys {V} (res : object V) : list jsstring :=
  fold_left
    (fun refs ref => if hasOwnProperty res ref then refs ++ [ref] else refs)
    (for_in_keys res) [].

(** Lines 208-231.  The caller tests the result for truthiness, so the
    result lives in the domain that test tells apart: [None] is
    [undefined], [Some l] is an array. *)
Definition buildRefs (w : World) (since : Z) (builder : option jsstring)
  : M (option (list jsstring)) :=
  metaRefs <- call_ext ResolveRefs (resolveRefs w) ;;
  match metaRefs with
  | Some refs => ret (Some refs)
  | None =>
      builder' <-
        (if negb (truthy_string builder) then
           currentBuilder <- call_ext (BuilderInspect None)
                               (builder_inspect_default w) ;;
           ret (name currentBuilder)
         else ret (nullish builder [])) ;;
      res <- call_ext (BuildxRefs builder' since)
               (Resolves (Buildx_refs (refs_store w) builder' since)) ;;
      ret (Some (own_keys res))
  end.

(** Lines 151-161. *)
Definition build_references (w : World) (startedTime : Z) (inputs : Inputs)
  : M unit :=
  group (js "Build references")
    (refs <- buildRefs w startedTime (builder inputs) ;;
     match refs with
     | Some refs =>
         for_each refs (fun ref => emit (Info ref)) ;;
         emit (SaveState (SetBuildRefs refs))
     | None => emit (Warning (js "No build refs found"))
     end).

(** Lines 143-150. *)
Definition metadata_output (w : World) : M unit :=
  metadata <- call_ext ResolveMetadata (resolveMetadata w) ;;
  match metadata with
  | Some md =>
      group (js "Metadata")
        (let metadatadt := JSON_stringify w (JMetadata md) 2 in
         emit (Info metadatadt) ;;
         emit (SetOutput (js "metadata") metadatadt))
  | None => ret tt
  end.

(** Lines 162-164. *)
Definition rethrow (err : option Error) : M unit :=
  match err with
  | Some e => throw e
  | None => ret tt
  end.

(** Lines 125-164: the two passes and what follows them. *)
Definition passes (w : World) (startedTime : Z) (inputs : Inputs)
  (p : Prepared) : M unit :=
  print_pass w inputs p ;;
  err <- exec_pass w inputs p ;;
  metadata_output w ;;
  build_references w startedTime inputs ;;
  rethrow err.

(** Lines 80-164: what runs once buildx is known to be available. *)
Definition bake (w : World) (startedTime : Z) (inputs : Inputs)
  (gitAuthToken : jsstring) : M unit :=
  p <- prepare w inputs gitAuthToken ;;
  passes w startedTime inputs p.

(** Lines 24-73: what runs before the availability check. *)
Definition preamble (w : World) : M (Z * Inputs * jsstring) :=
  startedTime <- call_ext NewDate (Resolves (now w)) ;;
  inputs <- call_ext GetInputs (getInputs w) ;;
  emit (Debug (js "inputs: " ++ JSON_stringify w (JInputs inputs) 0)) ;;
  emit (SaveState (SetInputs inputs)) ;;
  let gitAuthToken :=
    nullish (getenv (process_env w) "BUILDX_BAKE_GIT_AUTH_TOKEN")
      (github_token inputs) in
  runtime_token_acs w ;;
  docker_info w ;;
  proxy_configuration w ;;
  ret (startedTime, inputs, gitAuthToken).

Definition main (w : World) : M unit :=
  pre <- preamble w ;;
  let '(startedTime, inputs, gitAuthToken) := pre in
  available <- call_ext BuildxIsAvailable (buildx_isAvailable w) ;;
  if negb available then
    emit (SetFailed (js "Docker buildx is required. See https://github.com/docker/setup-buildx-action to set up buildx."))
  else bake w startedTime inputs gitAuthToken.

(** ** The post phase (lines 167-205) *)

(** Modelled from the spec: state-helper.ts is not part of the sources at
    hand.  Spec section 3: the cross-phase carrier holds Inputs, Builder,
    BakeDefinition, the temporary-directory path and the ordered collection
    of BuildRefs; an unset field is the empty string, the empty collection,
    or absent. *)
Record PersistedState := {
  st_inputs : option Inputs;
  st_tmpDir : jsstring;
  st_builder : option BuilderInfo;
  st_bakeDefinition : option BakeDefinition;
  st_buildRefs : list jsstring
}.

Record PostWorld := {
  post_env : Env;
  parseBool : jsstring -> outcome bool;
  formatFileSize : Z -> jsstring;
  history_export : outcome ExportRes;
  uploadArtifact : outcome UploadRes;
  writeBuildSummary : outcome unit;
  rmSync : outcome unit
}.

(** Lines 179-194: the body of the [try]. *)
Definition summary_chain (st : PersistedState) (w : PostWorld) : M unit :=
  exportRes <- call_ext (HistoryExport (st_buildRefs st)) (history_export w) ;;
  emit (Info (js "Build records exported to "
              ++ dockerbuildFilename exportRes ++ js " ("
              ++ formatFileSize w (dockerbuildSize exportRes) ++ js ")")) ;;
  uploadRes <- call_ext
                 (UploadArtifact (dockerbuildFilename exportRes)
                    (js "application/gzip") 90)
                 (uploadArtifact w) ;;
  call_ext
    (WriteBuildSummary
       {| sum_exportRes := exportRes;
          sum_uploadRes := uploadRes;
          sum_inputs := st_inputs st;
          sum_bakeDefinition := st_bakeDefinition st |})
    (writeBuildSummary w).

(** Line 170: [process.env.DOCKER_BUILD_NO_SUMMARY &&
    Util.parseBool(process.env.DOCKER_BUILD_NO_SUMMARY)]. *)
Definition summary_disabled (w : PostWorld) : M bool :=
  let v := getenv (post_env w) "DOCKER_BUILD_NO_SUMMARY" in
  if truthy_string v then
    call_ext (ParseBool (nullish v [])) (parseBool w (nullish v []))
  else ret false.

(** Line 174: [stateHelper.builder && stateHelper.builder.driver === 'cloud']. *)
Definition is_cloud (b : option BuilderInfo) : bool :=
  match b with
  | Some b => jseqb (driver b) (js "cloud")
  | None => false
  end.

(** Lines 168-199. *)
Definition build_summary (st : PersistedState) (w : PostWorld) : M unit :=
  if (0 <? length (st_buildRefs st))%nat then
    group (js "Generating build summary")
      (disabled <- summary_disabled w ;;
       if disabled then emit (Info (js "Summary disabled"))
       else if is_cloud (st_builder st) then
         emit (Info (js "Summary is not yet supported with Docker Build Cloud"))
       else
         try_catch (summary_chain st w)
           (fun e => emit (Warning (message e))))
  else ret tt.

(** Lines 200-204. *)
Definition remove_tmpDir (st : PersistedState) (w : PostWorld) : M unit :=
  if (0 <? length (st_tmpDir st))%nat then
    group (js "Removing temp folder " ++ st_tmpDir st)
      (call_ext (RmSync (st_tmpDir st) true) (rmSync w))
  else ret tt.

Definition post (st : PersistedState) (w : PostWorld) : M unit :=
  build_summary st w ;;
  remove_tmpDir st w.

Unset Implicit Arguments.

(** ** Lines of a text, as the specification speaks of them *)

(** The lines of [s]: the pieces between line terminators. *)
Fixpoint split_lines (s : jsstring) : list jsstring :=
  match s with
  | [] => [[]]
  | c :: s' =>
      if is_line_terminator c then [] :: split_lines s'
      else match split_lines s' with
           | l :: ls => (c :: l) :: ls
           | [] => [[c]]
           end
  end.

(** A line is blank when it holds white space only. *)
Definition is_blank (l : jsstring) : bool := forallb is_space l.

Fixpoint last_opt {A} (l : list A) : option A :=
  match l with
  | [] => None
  | [x] => Some x
  | _ :: l' => last_opt l'
  end.

Definition nonblank_lines (s : jsstring) : list jsstring :=
  filter (fun l => negb (is_blank l)) (split_lines s).

Definition last_nonblank_line (s : jsstring) : option jsstring :=
  last_opt (nonblank_lines s).

(** The message as the specification words it: the last non-empty line with
    trailing white space trimmed, or the generic text. *)
Definition spec_message (s : jsstring) : jsstring :=
  match last_nonblank_line s with
  | Some l => trimEnd l
  | None => js "unknown error"
  end.

(** What the specification says of one execution pass: the error it
    leaves, if any, has that message, read with or without the prefix of
    line 139 before it. *)
Definition message_as_claimed (out : ExecOutput) : Prop :=
  forall e,
    exec_pass_error out = Some e ->
    message e = spec_message (stderr out)
    \/ message e = js "buildx bake failed with: " ++ spec_message (stderr out).

Fixpoint take_while (p : char16 -> bool) (s : jsstring) : jsstring :=
  match s with
  | [] => []
  | c :: s' => if p c then c :: take_while p s' else []
  end.

(** The lines after the first one. *)
Definition rest_lines (s : jsstring) : list jsstring :=
  match drop_while is_dot s with
  | [] => []
  | _ :: r => split_lines r
  end.

(** A text that is one line followed by white space only. *)
Definition line_then_blank (s : jsstring) : bool :=
  forallb is_space (drop_while is_dot s).

(** ** A unary logic for computations

    [sat P E m]: every event of [m] satisfies [P], and if [m] throws, the
    error satisfies [E]. *)
Definition sat {A} (P : event -> Prop) (E : Error -> Prop) (m : M A) : Prop :=
  Forall P (fst m) /\ forall e, snd m = Throw e -> E e.

(** Errors that come out of a callee. *)
Definition from_callee (e : Error) : Prop :=
  exists c, thrown_by e = ByCall c.

(** Events that are not a run of the build engine. *)
Definition not_a_run (ev : event) : Prop :=
  match ev with
  | Call (ExecExec _ _ _) | Call (ExecGetExecOutput _ _ _) => False
  | _ => True
  end.

(** Events that are not a scan of the history store. *)
Definition not_a_scan (ev : event) : Prop :=
  match ev with
  | Call (BuildxRefs _ _) => False
  | _ => True
  end.

(** Events that are not a warning. *)
Definition not_a_warning (ev : event) : Prop :=
  match ev with
  | Warning _ => False
  | _ => True
  end.

(** Events that are not an export, an upload or a summary. *)
Definition not_a_summary_step (ev : event) : Prop :=
  match ev with
  | Call (HistoryExport _) | Call (UploadArtifact _ _ _)
  | Call (WriteBuildSummary _) => False
  | _ => True
  end.

(** Events that are neither a run of the build engine nor a scan of the
    history store. *)
Definition diagnostic (ev : event) : Prop := not_a_run ev /\ not_a_scan ev.

(** Events that are not the execution pass. *)
Definition not_the_execution_pass (ev : event) : Prop :=
  match ev with
  | Call (ExecGetExecOutput _ _ _) => False
  | _ => True
  end.

(** Runs of the build engine are the two passes over what lines 80-123
    prepared. *)
Definition run_of (i : Inputs) (p : Prepared) (ev : event) : Prop :=
  match ev with
  | Call (ExecExec _ _ _) => ev = Call (print_call i p)
  | Call (ExecGetExecOutput _ _ _) => ev = Call (bake_call i p)
  | _ => True
  end.

(** Scans of the history store ask for the records since [t]. *)
Definition scan_since (t : Z) (ev : event) : Prop :=
  match ev with
  | Call (BuildxRefs _ since) => since = t
  | _ => True
  end.

(** A computation that cannot throw. *)
Definition never (e : Error) : Prop := False.

Definition any_error (e : Error) : Prop := True.

(** Errors that do not come out of the export, upload and summary chain. *)
Definition not_from_chain (e : Error) : Prop :=
  match thrown_by e with
  | ByCall (HistoryExport _) | ByCall (UploadArtifact _ _ _)
  | ByCall (WriteBuildSummary _) => False
  | _ => True
  end.

(** Errors other than the one line 139 creates. *)
Definition not_deferred (e : Error) : Prop := thrown_by e <> ByMain 139.

(** The records a scan for [builderName] since [since] is about. *)
Definition in_scope (builderName : jsstring) (since : Z) (r : LocalRef) : Prop :=
  ref_builder r = builderName /\ (since <= ref_created r)%Z.

(** ** Sample runs *)

Definition sample_inputs (b : option jsstring) : Inputs :=
  {| builder := b;
     files := [js "docker-bake.hcl"];
     load := false;
     no_cache := false;
     set := [];
     provenance := [];
     push := false;
     sbom := [];
     source := [];
     targets := [js "app"];
     workdir := js ".";
     github_token := js "token" |}.

(** A run in which every diagnostic call succeeds; the arguments set the
    builder input, what the two passes do, what the metadata file holds and
    what the history store holds. *)
Definition sample_world (b : option jsstring)
  (print_run bake_run : outcome ExecOutput)
  (meta : option Metadata) (metaRefs : option (list jsstring))
  (store : list LocalRef) : World :=
  {| now := 1000;
     process_env := [(js "HOME", js "/home/runner")];
     JSON_stringify := fun _ _ => js "{}";
     getInputs := Resolves (sample_inputs b);
     printActionsRuntimeTokenACs := Resolves tt;
     docker_printVersion := Resolves tt;
     docker_printInfo := Resolves tt;
     docker_configFile := Resolves None;
     docker_config_path := js "/home/runner/.docker/config.json";
     buildx_isAvailable := Resolves true;
     context_tmpDir := js "/tmp/docker-actions-toolkit-1";
     buildx_printVersion := Resolves tt;
     builder_inspect := Resolves {| name := js "X"; driver := js "docker-container" |};
     builder_inspect_default :=
       Resolves {| name := js "X"; driver := js "docker-container" |};
     getDefinition := Resolves (Some {| definition_text := js "{}" |});
     getArgs := Resolves [js "bake"; js "app"];
     getCommand :=
       Resolves {| command := js "docker";
                   args := [js "buildx"; js "bake"; js "app"] |};
     process_print := print_run;
     process_bake := bake_run;
     exit_code_message := fun _ _ => js "The process failed";
     resolveMetadata := Resolves meta;
     resolveRefs := Resolves metaRefs;
     refs_store := store |}.

Definition exits (code : Z) (err_text : jsstring) : outcome ExecOutput :=
  Resolves {| exitCode := code; stdout := []; stderr := err_text |}.

Definition LF : jsstring := [10%N].

Definition sample_metadata : Metadata := {| metadata_text := js "{}" |}.

Definition failing_output : ExecOutput :=
  {| exitCode := 1; stdout := [];
     stderr := js "#1 building" ++ LF ++ js "ERROR: boom" ++ LF |}.

(** What lines 80-123 prepare in the sample runs. *)
Definition sample_prepared : Prepared :=
  {| buildCmd := {| command := js "docker";
                    args := [js "buildx"; js "bake"; js "app"] |};
     buildEnv := [(js "HOME", js "/home/runner");
                  (js "BUILDX_BAKE_GIT_AUTH_TOKEN", js "token")] |}.

(** The error of the failing build. *)
Definition boom_error : Error :=
  {| message := js "buildx bake failed with: ERROR: boom";
     thrown_by := ByMain 139 |}.

(** The build fails: exit code 1 and an error on stderr. *)
Definition failing_world : World :=
  sample_world (Some (js "X")) (exits 0 []) (Resolves failing_output)
    (Some sample_metadata) (Some [js "abc123"]) [].

(** The print pass fails. *)
Definition bad_plan_world : World :=
  sample_world (Some (js "X")) (exits 1 (js "ERROR: bad plan")) (exits 0 [])
    None None [].

(** The build succeeds and leaves no trace: no metadata references and an
    empty history store. *)
Definition traceless_world : World :=
  sample_world (Some (js "X")) (exits 0 []) (exits 0 []) None None [].

(** No builder input, no metadata references, and two records of builder X
    in the history store, one older and one younger than the start. *)
Definition history_world : World :=
  sample_world None (exits 0 []) (exits 0 []) None None
    [ {| ref_id := js "X/node0/old"; ref_builder := js "X"; ref_created := 999 |};
      {| ref_id := js "X/node0/new"; ref_builder := js "X"; ref_created := 1001 |};
      {| ref_id := js "Y/node0/other"; ref_builder := js "Y"; ref_created := 1001 |} ].

(** The metadata file names two references while the history store holds
    a young record of the same builder. *)
Definition metadata_world : World :=
  sample_world (Some (js "X")) (exits 0 []) (exits 0 [])
    (Some sample_metadata) (Some [js "a"; js "b"])
    [ {| ref_id := js "X/node0/new"; ref_builder := js "X"; ref_created := 1001 |} ].

(** The metadata file yields an empty list of references. *)
Definition empty_metadata_world : World :=
  sample_world (Some (js "X")) (exits 0 []) (exits 0 [])
    (Some sample_metadata) (Some [])
    [ {| ref_id := js "X/node0/new"; ref_builder := js "X"; ref_created := 1001 |} ].

Definition sample_post_world (exp : outcome ExportRes) : PostWorld :=
  {| post_env := [];
     parseBool := fun _ => Rejects (js "parseBool syntax error");
     formatFileSize := fun _ => js "1 KB";
     history_export := exp;
     uploadArtifact := Resolves {| upload_id := 1; upload_url := js "https://example.test/1" |};
     writeBuildSummary := Resolves tt;
     rmSync := Resolves tt |}.

Definition sample_state (refs : list jsstring) (tmp : jsstring) : PersistedState :=
  {| st_inputs := Some (sample_inputs (Some (js "X")));
     st_tmpDir := tmp;
     st_builder := Some {| name := js "X"; driver := js "docker-container" |};
     st_bakeDefinition := Some {| definition_text := js "{}" |};
     st_buildRefs := refs |}.

(** ** Observations on traces *)

(** The setters of [stateHelper]. *)
Inductive setter :=
| KInputs
| KTmpDir
| KBuilder
| KBakeDefinition
| KBuildRefs.

Definition setter_of (s : state_write) : setter :=
  match s with
  | SetInputs _ => KInputs
  | SetTmpDir _ => KTmpDir
  | SetBuilder _ => KBuilder
  | SetBakeDefinition _ => KBakeDefinition
  | SetBuildRefs _ => KBuildRefs
  end.

(** The setters a trace calls, in order. *)
Fixpoint setters (t : trace) : list setter :=
  match t with
  | [] => []
  | SaveState s :: t' => setter_of s :: setters t'
  | _ :: t' => setters t'
  end.

(** The order in which main.ts calls the setters (lines 28, 80, 89, 115,
    157). *)
Definition all_setters : list setter :=
  [KInputs; KTmpDir; KBuilder; KBakeDefinition; KBuildRefs].

(** [saves L m]: when [m] ends normally it has called the setters [L], and
    when it throws it has called some first part of [L]. *)
Definition saves {A} (L : list setter) (m : M A) : Prop :=
  match snd m with
  | Ok _ => setters (fst m) = L
  | Throw _ => exists rest, setters (fst m) ++ rest = L
  end.

Definition not_a_save (ev : event) : Prop :=
  match ev with
  | SaveState _ => False
  | _ => True
  end.

Definition not_a_group (ev : event) : Prop :=
  match ev with
  | StartGroup _ | EndGroup => False
  | _ => True
  end.

(** Reading a trace from outside ([false]) or inside ([true]) a log group:
    where the reading ends, or [None] when a group opens inside a group or
    closes outside of one. *)
Fixpoint groups_from (inside : bool) (t : trace) : option bool :=
  match t with
  | [] => Some inside
  | StartGroup _ :: t' => if inside then None else groups_from true t'
  | EndGroup :: t' => if inside then groups_from false t' else None
  | _ :: t' => groups_from inside t'
  end.

(** Every group that opens is closed, and groups do not nest. *)
Definition well_grouped (t : trace) : Prop := groups_from false t = Some false.

Definition token_var : jsstring := js "BUILDX_BAKE_GIT_AUTH_TOKEN".

(** Line 31: the token handed to the definition resolver and to the build
    engine. *)
Definition gitAuthToken_of (w : World) (inputs : Inputs) : jsstring :=
  nullish (getenv (process_env w) "BUILDX_BAKE_GIT_AUTH_TOKEN")
    (github_token inputs).

(** The text after the prefix in the message of an error of line 139. *)
Definition the_prefix : jsstring := js "buildx bake failed with: ".

(** The message of line 76. *)
Definition buildx_required : jsstring :=
  js "Docker buildx is required. See https://github.com/docker/setup-buildx-action to set up buildx.".

(** Events that are none of the three calls of the summary chain; the
    chain's calls, one by one. *)
Definition is_chain_call (ev : event) : Prop :=
  match ev with
  | Call (HistoryExport _) | Call (UploadArtifact _ _ _)
  | Call (WriteBuildSummary _) => True
  | _ => False
  end.

(** A run with chosen answers to the calls that the sample runs above let
    succeed. *)
Definition custom_world (environment : Env)
  (acs dockerVersion : outcome unit)
  (config : outcome (option ConfigFile))
  (available : outcome bool)
  (definition : outcome (option BakeDefinition))
  (inspect_default : outcome BuilderInfo)
  (print_run bake_run : outcome ExecOutput)
  (meta : outcome (option Metadata))
  (metaRefs : outcome (option (list jsstring))) : World :=
  {| now := 1000;
     process_env := environment;
     JSON_stringify := fun _ _ => js "{}";
     getInputs := Resolves (sample_inputs None);
     printActionsRuntimeTokenACs := acs;
     docker_printVersion := dockerVersion;
     docker_printInfo := Resolves tt;
     docker_configFile := config;
     docker_config_path := js "/home/runner/.docker/config.json";
     buildx_isAvailable := available;
     context_tmpDir := js "/tmp/docker-actions-toolkit-1";
     buildx_printVersion := Resolves tt;
     builder_inspect := Resolves {| name := js "X"; driver := js "docker-container" |};
     builder_inspect_default := inspect_default;
     getDefinition := definition;
     getArgs := Resolves [js "bake"; js "app"];
     getCommand :=
       Resolves {| command := js "docker";
                   args := [js "buildx"; js "bake"; js "app"] |};
     process_print := print_run;
     process_bake := bake_run;
     exit_code_message := fun _ _ => js "The process failed";
     resolveMetadata := meta;
     resolveRefs := metaRefs;
     refs_store := [] |}.

Definition sample_definition : outcome (option BakeDefinition) :=
  Resolves (Some {| definition_text := js "{}" |}).

Definition sample_builder : outcome BuilderInfo :=
  Resolves {| name := js "X"; driver := js "docker-container" |}.

(** What lines 80-123 prepare under an empty process environment. *)
Definition bare_prepared : Prepared :=
  {| buildCmd := buildCmd sample_prepared;
     buildEnv := [(token_var, js "token")] |}.

(** Every diagnostic call fails, and buildx is not there. *)
Definition no_buildx_world : World :=
  custom_world [(js "BUILDX_BAKE_GIT_AUTH_TOKEN", [])]
    (Rejects (js "no runtime token")) (Rejects (js "no docker"))
    (Rejects (js "bad json")) (Resolves false)
    sample_definition sample_builder (exits 0 []) (exits 0 []) (Resolves None)
    (Resolves None).

(** The definition resolver gives nothing. *)
Definition no_definition_world : World :=
  custom_world [] (Resolves tt) (Resolves tt) (Resolves None) (Resolves true)
    (Resolves None) sample_builder (exits 0 []) (exits 0 []) (Resolves None)
    (Resolves None).

(** The build fails, and then the default builder cannot be inspected. *)
Definition no_builder_world : World :=
  custom_world [] (Resolves tt) (Resolves tt) (Resolves None) (Resolves true)
    sample_definition (Rejects (js "no builder")) (exits 0 [])
    (Resolves failing_output) (Resolves None) (Resolves None).

(** The build engine cannot be started for the execution pass. *)
Definition no_engine_world : World :=
  custom_world [] (Resolves tt) (Resolves tt) (Resolves None) (Resolves true)
    sample_definition sample_builder (exits 0 [])
    (Rejects (js "spawn docker ENOENT")) (Resolves None) (Resolves None).

(** A post phase with chosen environment and answers. *)
Definition custom_post_world (environment : Env)
  (parse : outcome bool) (exp : outcome ExportRes)
  (upl : outcome UploadRes) (summary remove : outcome unit) : PostWorld :=
  {| post_env := environment;
     parseBool := fun _ => parse;
     formatFileSize := fun _ => js "1 KB";
     history_export := exp;
     uploadArtifact := upl;
     writeBuildSummary := summary;
     rmSync := remove |}.

Definition sample_export : ExportRes :=
  {| dockerbuildFilename := js "/tmp/x/rec.dockerbuild"; dockerbuildSize := 1024 |}.

Definition sample_upload : UploadRes :=
  {| upload_id := 1; upload_url := js "https://example.test/1" |}.

(** What every event of the post phase has to be: a call of the chain
    with the arguments lines 180-194 give it, the removal of the saved
    directory, the parsing of the switch of line 170, a warning that
    carries the message of the chain's failure, an info line or a group
    mark.  The post phase saves no state and sets no output. *)
Definition post_event_ok (st : PersistedState) (w : PostWorld) (ev : event)
  : Prop :=
  match ev with
  | Call (HistoryExport refs) =>
      refs = st_buildRefs st /\ refs <> []
      /\ is_cloud (st_builder st) = false
      /\ snd (summary_disabled w) = Ok false
  | Call (UploadArtifact f m r) =>
      exists e, history_export w = Resolves e
                /\ f = dockerbuildFilename e
                /\ m = js "application/gzip" /\ r = 90%Z
  | Call (WriteBuildSummary o) =>
      exists e u, history_export w = Resolves e
                  /\ uploadArtifact w = Resolves u
                  /\ o = {| sum_exportRes := e;
                            sum_uploadRes := u;
                            sum_inputs := st_inputs st;
                            sum_bakeDefinition := st_bakeDefinition st |}
  | Call (RmSync d r) => d = st_tmpDir st /\ d <> [] /\ r = true
  | Call (ParseBool v) =>
      getenv (post_env w) "DOCKER_BUILD_NO_SUMMARY" = Some v /\ v <> []
      /\ st_buildRefs st <> []
  | Warning m =>
      exists e, snd (summary_chain st w) = Throw e /\ message e = m
  | Info _ | StartGroup _ | EndGroup => True
  | _ => False
  end.


(** ** Properties of strings and of the matcher *)

Section Strings.

Lemma take_drop_while p s : take_while p s ++ drop_while p s = s.
Proof.
  induction s as [|c s IH]; simpl; auto.
  destruct (p c); simpl; congruence.
Qed.

Lemma drop_while_all p u v :
  forallb p u = true -> drop_while p (u ++ v) = drop_while p v.
Proof.
  induction u as [|c u IH]; simpl; auto.
  destruct (p c); simpl; auto. discriminate.
Qed.

Lemma drop_while_all_nil p u : forallb p u = true -> drop_while p u = [].
Proof.
  intros H. rewrite <- (app_nil_r u). rewrite drop_while_all; auto.
Qed.

Lemma drop_while_some p u v :
  forallb p u = false -> drop_while p (u ++ v) = drop_while p u ++ v.
Proof.
  induction u as [|c u IH]; simpl; try discriminate.
  destruct (p c); simpl; auto.
Qed.

Lemma forallb_drop_while p q s :
  forallb p s = true -> forallb p (drop_while q s) = true.
Proof.
  induction s as [|c s IH]; simpl; auto.
  intros H. apply andb_prop in H. destruct H as [Hc Hs].
  destruct (q c); simpl; auto. rewrite Hc, Hs. reflexivity.
Qed.

Lemma line_terminator_is_space c : is_line_terminator c = true -> is_space c = true.
Proof. unfold is_space. intros ->. apply orb_true_r. Qed.

Lemma trimEnd_blank_suffix a b :
  forallb is_space b = true -> trimEnd (a ++ b) = trimEnd a.
Proof.
  intros Hb. unfold trimEnd. rewrite rev_app_distr.
  rewrite drop_while_all; auto.
  rewrite forallb_forall in *. intros x Hx. apply Hb.
  apply in_rev. exact Hx.
Qed.

Lemma trimEnd_blank a : forallb is_space a = true -> trimEnd a = [].
Proof.
  intros H. rewrite <- (app_nil_l a). rewrite trimEnd_blank_suffix; auto.
Qed.

Lemma trim_blank_suffix a b :
  forallb is_space b = true -> trim (a ++ b) = trim a.
Proof.
  intros Hb. unfold trim, trimStart.
  destruct (forallb is_space a) eqn:Ha.
  - rewrite drop_while_all by exact Ha.
    rewrite (drop_while_all_nil _ _ Hb), (drop_while_all_nil _ _ Ha).
    reflexivity.
  - rewrite drop_while_some by exact Ha.
    apply trimEnd_blank_suffix. exact Hb.
Qed.

Lemma trim_blank a : forallb is_space a = true -> trim a = [].
Proof.
  intros H. unfold trim, trimStart. rewrite drop_while_all_nil; auto.
Qed.

End Strings.

Section Matcher.

Lemma match_blank_to_end s :
  match_here [TStar is_space; TEnd] s
  = if forallb is_space s then Some s else None.
Proof.
  induction s as [|c s IH]; [reflexivity|].
  change (match_here [TStar is_space; TEnd] (c :: s))
    with (if is_space c
          then match match_here [TStar is_space; TEnd] s with
               | Some m => Some (c :: m)
               | None => match_here [TEnd] (c :: s)
               end
          else match_here [TEnd] (c :: s)).
  rewrite IH. simpl.
  destruct (is_space c); simpl; auto.
  destruct (forallb is_space s); reflexivity.
Qed.

(** At a given start, the pattern of line 139 matches exactly the texts
    that are one line followed by white space, and then it matches all of
    the text. *)
Lemma match_last_line_here s :
  match_here last_line_re s = if line_then_blank s then Some s else None.
Proof.
  unfold line_then_blank.
  induction s as [|c s IH]; [reflexivity|].
  change (match_here last_line_re (c :: s))
    with (if is_dot c
          then match match_here last_line_re s with
               | Some m => Some (c :: m)
               | None => match_here [TStar is_space; TEnd] (c :: s)
               end
          else match_here [TStar is_space; TEnd] (c :: s)).
  rewrite IH, match_blank_to_end. simpl drop_while.
  destruct (is_dot c) eqn:Hc.
  - destruct (forallb is_space (drop_while is_dot s)) eqn:Hs; auto.
    destruct (forallb is_space (c :: s)) eqn:Hall; auto.
    simpl in Hall. apply andb_prop in Hall. destruct Hall as [_ Hall].
    apply (forallb_drop_while _ is_dot) in Hall. congruence.
  - reflexivity.
Qed.

Lemma regexp_exec_last_line s :
  regexp_exec last_line_re s
  = if line_then_blank s then Some s
    else match s with
         | [] => None
         | _ :: s' => regexp_exec last_line_re s'
         end.
Proof.
  destruct s; cbn [regexp_exec]; rewrite match_last_line_here;
    destruct (line_then_blank _); reflexivity.
Qed.

(** The pattern of line 139 matches every text: [match] never gives
    [null]. *)
Lemma last_line_re_always_matches s :
  exists m, String_match s last_line_re = Some m.
Proof.
  unfold String_match.
  induction s as [|c s IH]; rewrite regexp_exec_last_line.
  - simpl. eauto.
  - destruct (line_then_blank (c :: s)); eauto.
Qed.

End Matcher.

Section Lines.

Lemma split_lines_first_rest s :
  split_lines s = take_while is_dot s :: rest_lines s.
Proof.
  induction s as [|c s IH]; [reflexivity|].
  unfold rest_lines, is_dot in *. simpl.
  destruct (is_line_terminator c); simpl; [reflexivity|].
  rewrite IH. reflexivity.
Qed.

Lemma drop_while_head p s c r : drop_while p s = c :: r -> p c = false.
Proof.
  induction s as [|d s IH]; simpl; [discriminate|].
  destruct (p d) eqn:Hd; auto.
  intros H. injection H as -> _. exact Hd.
Qed.

Lemma blank_lines_blank_text s :
  forallb is_blank (split_lines s) = forallb is_space s.
Proof.
  induction s as [|c s IH]; [reflexivity|].
  simpl. destruct (is_line_terminator c) eqn:Hc.
  - simpl. rewrite IH, (line_terminator_is_space _ Hc). reflexivity.
  - rewrite <- IH. destruct (split_lines s) as [|l ls]; simpl.
    + rewrite !andb_true_r. reflexivity.
    + rewrite andb_assoc. reflexivity.
Qed.

Lemma filter_nonblank_nil ls :
  filter (fun l => negb (is_blank l)) ls = [] <-> forallb is_blank ls = true.
Proof.
  induction ls as [|l ls IH]; simpl; [tauto|].
  destruct (is_blank l); simpl; [exact IH|].
  split; discriminate.
Qed.

Lemma rest_lines_blank s :
  filter (fun l => negb (is_blank l)) (rest_lines s) = []
  <-> line_then_blank s = true.
Proof.
  rewrite filter_nonblank_nil. unfold rest_lines, line_then_blank.
  destruct (drop_while is_dot s) as [|c r] eqn:Hd; [simpl; tauto|].
  rewrite blank_lines_blank_text. simpl.
  apply drop_while_head in Hd. unfold is_dot in Hd.
  apply negb_false_iff in Hd.
  rewrite (line_terminator_is_space _ Hd). simpl. tauto.
Qed.

Lemma last_opt_cons {A} (x : A) l : l <> [] -> last_opt (x :: l) = last_opt l.
Proof. destruct l; [congruence | reflexivity]. Qed.

(** When the text has a line that is not blank, what line 139 extracts is
    the last such line, trimmed on both sides. *)
Lemma stderr_detail_last_line s l :
  last_nonblank_line s = Some l -> stderr_detail s = trim l.
Proof.
  unfold stderr_detail, String_match, last_nonblank_line, nonblank_lines.
  revert l. induction s as [|c s IH]; intros l; [discriminate|].
  rewrite regexp_exec_last_line.
  destruct (line_then_blank (c :: s)) eqn:Hok.
  - rewrite split_lines_first_rest.
    set (first := take_while is_dot (c :: s)).
    cbn [filter].
    apply rest_lines_blank in Hok as Hrest. rewrite Hrest.
    destruct (is_blank first); cbn [negb last_opt]; [discriminate|].
    intros [= <-]. subst first.
    rewrite <- (take_drop_while is_dot (c :: s)) at 1.
    apply trim_blank_suffix. exact Hok.
  - assert (Hne : filter (fun l => negb (is_blank l)) (rest_lines (c :: s)) <> []).
    { intros E. apply rest_lines_blank in E. congruence. }
    intros Hl. apply IH. rewrite <- Hl.
    destruct (is_line_terminator c) eqn:Hc.
    + simpl. rewrite Hc. reflexivity.
    + rewrite (split_lines_first_rest (c :: s)), (split_lines_first_rest s).
      assert (Hr : rest_lines (c :: s) = rest_lines s).
      { unfold rest_lines, is_dot. simpl. rewrite Hc. reflexivity. }
      rewrite Hr in *.
      set (first := take_while is_dot (c :: s)).
      set (first' := take_while is_dot s).
      cbn [filter].
      destruct (negb (is_blank first)); destruct (negb (is_blank first'));
        rewrite ?last_opt_cons by exact Hne; reflexivity.
Qed.

(** A text of white space only has no line that is not blank, and line 139
    extracts the empty text from it. *)
Lemma stderr_detail_blank s :
  forallb is_space s = true ->
  last_nonblank_line s = None /\ stderr_detail s = [].
Proof.
  intros H. split.
  - unfold last_nonblank_line, nonblank_lines.
    rewrite (proj2 (filter_nonblank_nil _)); [reflexivity|].
    rewrite blank_lines_blank_text. exact H.
  - unfold stderr_detail, String_match.
    rewrite regexp_exec_last_line. unfold line_then_blank.
    rewrite (forallb_drop_while _ is_dot _ H).
    apply trim_blank. exact H.
Qed.

End Lines.

(** ** Rules of the logic *)

Section Rules.

Context {A B : Type}.
Variables (P : event -> Prop) (E : Error -> Prop).

Lemma sat_ret (a : A) : sat P E (ret a).
Proof. split; [constructor | discriminate]. Qed.

Lemma sat_emit ev : P ev -> sat P E (emit ev).
Proof. intros H. split; [repeat constructor; exact H | discriminate]. Qed.

Lemma sat_throw e : E e -> sat P E (@throw A e).
Proof. intros H. split; [constructor | intros e' [= <-]; exact H]. Qed.

Lemma sat_call c (o : outcome A) :
  P (Call c) ->
  (forall msg, E {| message := msg; thrown_by := ByCall c |}) ->
  sat P E (call_ext c o).
Proof.
  intros Hc He. destruct o; split; simpl;
    try (repeat constructor; exact Hc); try discriminate.
  intros e [= <-]. apply He.
Qed.

Lemma sat_bind (m : M A) (f : A -> M B) :
  sat P E m -> (forall a, sat P E (f a)) -> sat P E (bind m f).
Proof.
  intros [Hm He] Hf. destruct m as [t [a|e]]; simpl in *.
  - destruct (Hf a) as [Hfa Hfe]. destruct (f a) as [t' r]; simpl in *.
    split; [apply Forall_app; auto | exact Hfe].
  - split; [exact Hm|]. intros e' [= <-]. apply He. reflexivity.
Qed.

Lemma sat_group title (m : M A) :
  P (StartGroup title) -> P EndGroup -> sat P E m -> sat P E (group title m).
Proof.
  intros Hs He [Hm Hr]. destruct m as [t r]; simpl in *.
  split; [|exact Hr].
  constructor; [exact Hs|]. apply Forall_app. split; auto.
Qed.

Lemma sat_try_catch (m : M A) (h : Error -> M A) :
  Forall P (fst m) -> (forall e, sat P E (h e)) -> sat P E (try_catch m h).
Proof.
  intros Hm Hh. destruct m as [t [a|e]]; simpl in *.
  - split; [exact Hm | discriminate].
  - destruct (Hh e) as [Hhe Hhr]. destruct (h e) as [t' r]; simpl in *.
    split; [apply Forall_app; auto | exact Hhr].
Qed.

End Rules.

Lemma sat_bind_val {A B} P E (m : M A) (f : A -> M B) :
  sat P E m -> (forall t a, m = (t, Ok a) -> sat P E (f a)) ->
  sat P E (bind m f).
Proof.
  intros [Hm He] Hf. destruct m as [t [a|e]]; simpl in *.
  - destruct (Hf t a eq_refl) as [Hfa Hfe]. destruct (f a) as [t' r]; simpl in *.
    split; [apply Forall_app; auto | exact Hfe].
  - split; [exact Hm|]. intros e' [= <-]. apply He. reflexivity.
Qed.

Lemma sat_for_each {A} P E (l : list A) (body : A -> M unit) :
  (forall x, sat P E (body x)) -> sat P E (for_each l body).
Proof.
  intros H. induction l as [|x l IH]; simpl.
  - apply sat_ret.
  - apply sat_bind; auto.
Qed.

Lemma sat_weaken {A} (P Q : event -> Prop) (E F : Error -> Prop) (m : M A) :
  (forall ev, P ev -> Q ev) -> (forall e, E e -> F e) ->
  sat P E m -> sat Q F m.
Proof.
  intros HP HE [Ht He]. split.
  - eapply Forall_impl; eauto.
  - intros e H. auto.
Qed.

Lemma sat_ok {A} P E (m : M A) :
  sat P E m ->
  (exists t a, m = (t, Ok a) /\ Forall P t)
  \/ (exists t e, m = (t, Throw e) /\ Forall P t /\ E e).
Proof.
  intros [Ht He]. destruct m as [t [a|e]]; simpl in *.
  - left. eauto.
  - right. exists t, e. auto.
Qed.

Ltac event_ok := first [exact I | split; exact I | reflexivity].

Ltac error_ok :=
  first [ exact I
        | eexists; reflexivity
        | unfold not_deferred; simpl; discriminate ].

Ltac sat_step :=
  first
    [ apply sat_ret
    | apply sat_bind; [|intros ?]
    | apply sat_group; [event_ok | event_ok |]
    | apply sat_for_each; intros ?
    | apply sat_emit; event_ok
    | apply sat_throw; error_ok
    | apply sat_call; [event_ok | intros ?; error_ok]
    | apply sat_try_catch; [|intros ?]
    | match goal with
      | |- sat _ _ (if ?b then _ else _) => destruct b
      | |- sat _ _ (match ?x with _ => _ end) => destruct x
      | |- sat _ _ (let (_, _) := ?x in _) => destruct x
      end ].

(** ** Equations of the monad *)

Lemma bind_ok {A B} t (a : A) (f : A -> M B) :
  bind (t, Ok a) f = (t ++ fst (f a), snd (f a)).
Proof. simpl. destruct (f a); reflexivity. Qed.

Lemma bind_throw {A B} t e (f : A -> M B) :
  bind (t, Throw e) f = (t, Throw e).
Proof. reflexivity. Qed.

Lemma group_eq {A} title (m : M A) :
  group title m = (StartGroup title :: fst m ++ [EndGroup], snd m).
Proof. destruct m; reflexivity. Qed.

Lemma pair_eta {A B} (p : A * B) : p = (fst p, snd p).
Proof. destruct p; reflexivity. Qed.

(** ** The stages of the main phase *)

Lemma call_trace {A} c (o : outcome A) : fst (call_ext c o) = [Call c].
Proof. destruct o; reflexivity. Qed.

Lemma runtime_token_acs_sat w : sat diagnostic never (runtime_token_acs w).
Proof.
  unfold runtime_token_acs. sat_step. sat_step.
  - rewrite call_trace. repeat constructor.
  - sat_step.
Qed.

Lemma docker_info_sat w : sat diagnostic never (docker_info w).
Proof.
  unfold docker_info. sat_step. sat_step.
  - destruct (docker_printVersion w), (docker_printInfo w);
      repeat constructor.
  - sat_step.
Qed.

Lemma proxy_configuration_sat w : sat diagnostic never (proxy_configuration w).
Proof.
  unfold proxy_configuration. sat_step. sat_step.
  - sat_step.
    + destruct (docker_configFile w); repeat constructor.
    + repeat sat_step.
  - repeat sat_step.
Qed.

Lemma preamble_sat w : sat diagnostic from_callee (preamble w).
Proof.
  unfold preamble.
  do 4 (sat_step; [solve [repeat sat_step]|]).
  sat_step.
  { eapply sat_weaken; [| |apply runtime_token_acs_sat]; [auto | intros ? []]. }
  sat_step.
  { eapply sat_weaken; [| |apply docker_info_sat]; [auto | intros ? []]. }
  sat_step.
  { eapply sat_weaken; [| |apply proxy_configuration_sat]; [auto | intros ? []]. }
  sat_step.
Qed.

Lemma prepare_sat w inputs tok : sat diagnostic not_deferred (prepare w inputs tok).
Proof. unfold prepare. repeat sat_step. Qed.

Lemma print_pass_sat w inputs p :
  sat not_a_scan from_callee (print_pass w inputs p).
Proof. unfold print_pass. repeat sat_step. Qed.

Lemma metadata_output_sat w : sat diagnostic from_callee (metadata_output w).
Proof. unfold metadata_output. repeat sat_step. Qed.

Lemma buildRefs_sat w since b :
  sat (fun ev => not_a_run ev /\ not_a_warning ev) from_callee
    (buildRefs w since b).
Proof. unfold buildRefs. repeat sat_step. Qed.

Lemma build_references_sat w started inputs :
  sat not_a_run from_callee (build_references w started inputs).
Proof.
  unfold build_references. sat_step.
  sat_step.
  - eapply sat_weaken; [| |apply buildRefs_sat]; [intros ? []; auto | auto].
  - repeat sat_step.
Qed.

(** ** Objects and the history store *)

Section Objects.

Lemma jseqb_eq a b : jseqb a b = true <-> a = b.
Proof.
  unfold jseqb. destruct (jsstring_eq_dec a b); split; auto; discriminate.
Qed.

Lemma push_loop (h : jsstring -> bool) l acc :
  fold_left (fun refs ref => if h ref then refs ++ [ref] else refs) l acc
  = acc ++ filter h l.
Proof.
  revert acc. induction l as [|k l IH]; intros acc; simpl.
  - rewrite app_nil_r. reflexivity.
  - rewrite IH. destruct (h k); [rewrite <- app_assoc|]; reflexivity.
Qed.

Lemma filter_all {A} (h : A -> bool) l :
  (forall x, In x l -> h x = true) -> filter h l = l.
Proof.
  induction l as [|x l IH]; simpl; intros H; [reflexivity|].
  rewrite (H x) by auto. rewrite IH; auto.
Qed.

Lemma filter_none {A} (h : A -> bool) l :
  filter h (filter (fun x => negb (h x)) l) = [].
Proof.
  induction l as [|x l IH]; simpl; [reflexivity|].
  destruct (h x) eqn:Hx; simpl; [exact IH|]. rewrite Hx. exact IH.
Qed.

(** The loop of lines 224-229 collects exactly the own keys, in the order
    of enumeration. *)
Lemma own_keys_own {V} (res : object V) :
  own_keys res = map fst (own_properties res).
Proof.
  unfold own_keys, for_in_keys. rewrite push_loop. simpl.
  rewrite filter_app, filter_none, app_nil_r.
  apply filter_all. intros k Hk. unfold hasOwnProperty.
  apply existsb_exists. exists k. split; [exact Hk|]. apply jseqb_eq. reflexivity.
Qed.

Lemma obj_set_keys {V} (o : list (jsstring * V)) k v x :
  In x (map fst (obj_set o k v)) <-> In x (map fst o) \/ x = k.
Proof.
  induction o as [|[k' v'] o IH]; simpl.
  - intuition congruence.
  - destruct (jseqb k' k) eqn:Hk; simpl.
    + apply jseqb_eq in Hk. subst. intuition congruence.
    + rewrite IH. tauto.
Qed.

Lemma Buildx_refs_keys store builderName since x :
  In x (map fst (own_properties (Buildx_refs store builderName since)))
  <-> exists r, In r store /\ ref_id r = x /\ in_scope builderName since r.
Proof.
  unfold Buildx_refs. simpl.
  match goal with |- context [fold_left ?f store []] => set (step := f) end.
  assert (G : forall acc,
             In x (map fst (fold_left step store acc))
             <-> In x (map fst acc)
                 \/ exists r, In r store /\ ref_id r = x
                              /\ in_scope builderName since r).
  { induction store as [|r store IH]; intros acc; simpl.
    - split; [auto | intros [H | [r [[] _]]]; exact H].
    - rewrite IH. unfold step at 1.
      assert (Hspec : jseqb (ref_builder r) builderName
                      && (since <=? ref_created r)%Z = true
                      <-> in_scope builderName since r).
      { unfold in_scope. rewrite andb_true_iff, jseqb_eq, Z.leb_le. tauto. }
      destruct (jseqb (ref_builder r) builderName
                && (since <=? ref_created r)%Z).
      + assert (Hr : in_scope builderName since r) by (apply Hspec; reflexivity).
        rewrite obj_set_keys. split.
        * intros [[H | ->] | [r' [Hin H]]]; [auto | right; exists r; auto |].
          right. exists r'. tauto.
        * intros [H | [r' [[<- | Hin] [Hid Hs]]]]; [auto | auto |].
          right. exists r'. auto.
      + assert (Hr : ~ in_scope builderName since r).
        { intros H. apply Hspec in H. discriminate. }
        split.
        * intros [H | [r' [Hin H]]]; [auto|]. right. exists r'. tauto.
        * intros [H | [r' [[<- | Hin] [Hid Hs]]]]; [auto | contradiction |].
          right. exists r'. auto. }
  rewrite G. simpl. split; [intros [[] | H]; exact H | auto].
Qed.

End Objects.

(** ** The execution pass *)

Lemma exec_pass_resolves w inputs p out :
  process_bake w = Resolves out ->
  exec_pass w inputs p = ([Call (bake_call inputs p)], Ok (exec_pass_error out)).
Proof. intros H. unfold exec_pass, exec_outcome. rewrite H. reflexivity. Qed.

Lemma exec_pass_error_some res :
  (exists e, exec_pass_error res = Some e)
  <-> exitCode res <> 0%Z /\ stderr res <> [].
Proof.
  unfold exec_pass_error.
  destruct (stderr res) as [|c s]; simpl.
  - split; [intros [e H]; discriminate | intros [_ H]; congruence].
  - destruct (Z.eqb_spec (exitCode res) 0); simpl.
    + split; [intros [e' H]; discriminate | intros [H _]; congruence].
    + split; [intros _; split; [assumption | discriminate] | eauto].
Qed.

(** C1: in every execution pass that runs to its end, the pass itself does
    not throw, and the error it leaves in [err] is set if and only if the
    exit code is non-zero and the captured stderr is non-empty.  A non-zero
    exit code with empty stderr sets no error, and so does non-empty stderr
    with exit code zero. *)
Theorem C1_fatal_iff_nonzero_exit_and_stderr
  (w : World) (inputs : Inputs) (p : Prepared) (out : ExecOutput)
  (code : Z) (so se : jsstring) :
  process_bake w = Resolves out ->
  exec_pass w inputs p = ([Call (bake_call inputs p)], Ok (exec_pass_error out))
  /\ ((exists e, exec_pass_error out = Some e)
      <-> exitCode out <> 0%Z /\ stderr out <> [])
  /\ exec_pass_error {| exitCode := code; stdout := so; stderr := [] |} = None
  /\ exec_pass_error {| exitCode := 0; stdout := so; stderr := se |} = None.
Proof.
  intros H. split; [apply exec_pass_resolves; exact H|].
  split; [apply exec_pass_error_some|].
  split; [reflexivity|].
  unfold exec_pass_error. cbn [exitCode stderr].
  rewrite Z.eqb_refl. cbn [negb]. rewrite andb_false_r. reflexivity.
Qed.

Lemma C1_witness :
  exec_pass failing_world (sample_inputs None) sample_prepared
  = ([Call (bake_call (sample_inputs None) sample_prepared)],
     Ok (Some boom_error))
  /\ exists e, exec_pass_error failing_output = Some e.
Proof.
  destruct (C1_fatal_iff_nonzero_exit_and_stderr failing_world
              (sample_inputs None) sample_prepared failing_output
              7 [] (js "warning") eq_refl)
    as [Hrun [Hiff _]].
  split; [exact Hrun|].
  apply Hiff. split; [discriminate | discriminate].
Defined.

(** ** The reference resolver *)

(** C4: when the metadata document yields reference identifiers,
    [buildRefs] returns exactly those, and its only call is the one that
    reads them: it inspects no builder and does not scan the history
    store.  The same holds with any other history store in place. *)
Theorem C4_metadata_refs_verbatim
  (w : World) (since : Z) (b : option jsstring) (refs : list jsstring)
  (store : list LocalRef) :
  resolveRefs w = Resolves (Some refs) ->
  buildRefs w since b = ([Call ResolveRefs], Ok (Some refs))
  /\ buildRefs (with_store w store) since b = ([Call ResolveRefs], Ok (Some refs))
  /\ Forall not_a_scan (fst (buildRefs w since b)).
Proof.
  intros H. unfold buildRefs. simpl resolveRefs. rewrite H. simpl.
  repeat split; repeat constructor.
Qed.

Lemma C4_witness :
  buildRefs metadata_world 1000 (Some (js "X"))
  = ([Call ResolveRefs], Ok (Some [js "a"; js "b"]))
  /\ buildRefs (with_store metadata_world []) 1000 (Some (js "X"))
     = ([Call ResolveRefs], Ok (Some [js "a"; js "b"])).
Proof.
  destruct (C4_metadata_refs_verbatim metadata_world 1000 (Some (js "X"))
              [js "a"; js "b"] [] eq_refl) as [H1 [H2 _]].
  split; [exact H1 | exact H2].
Defined.

Lemma buildRefs_history w since b cur :
  resolveRefs w = Resolves None ->
  truthy_string b = false ->
  builder_inspect_default w = Resolves cur ->
  buildRefs w since b
  = ([Call ResolveRefs; Call (BuilderInspect None);
      Call (BuildxRefs (name cur) since)],
     Ok (Some (map fst (own_properties
                          (Buildx_refs (refs_store w) (name cur) since))))).
Proof.
  intros H1 H2 H3. unfold buildRefs. rewrite H1. simpl.
  rewrite H2. simpl. rewrite H3. simpl.
  rewrite own_keys_own. reflexivity.
Qed.

Lemma buildRefs_named w since c b :
  resolveRefs w = Resolves None ->
  buildRefs w since (Some (c :: b))
  = ([Call ResolveRefs; Call (BuildxRefs (c :: b) since)],
     Ok (Some (map fst (own_properties
                          (Buildx_refs (refs_store w) (c :: b) since))))).
Proof.
  intros H1. unfold buildRefs. rewrite H1. simpl.
  rewrite own_keys_own. reflexivity.
Qed.

Lemma bind_ok_inv {A B} (m : M A) (f : A -> M B) t b :
  bind m f = (t, Ok b) ->
  exists t1 a t2, m = (t1, Ok a) /\ f a = (t2, Ok b) /\ t = t1 ++ t2.
Proof.
  destruct m as [t1 [a|e]]; simpl; [|discriminate].
  destruct (f a) as [t2 r] eqn:Hf. intros [= <- ->].
  exists t1, a, t2. auto.
Qed.

Lemma preamble_value w t s i tok :
  preamble w = (t, Ok (s, i, tok)) -> s = now w.
Proof.
  unfold preamble. intros H.
  repeat (apply bind_ok_inv in H; destruct H as (? & ? & ? & ? & H & ?)).
  match goal with
  | H0 : call_ext NewDate _ = _ |- _ => simpl in H0; injection H0 as _ <-
  end.
  injection H as _ <- _ _. reflexivity.
Qed.

Lemma bind_first_event {A B} (m : M A) (f : A -> M B) ev :
  (exists t, fst m = ev :: t) -> exists t, fst (bind m f) = ev :: t.
Proof.
  intros [t H]. destruct m as [t0 [a|e]]; simpl in *; subst.
  - destruct (f a) as [t' r]. simpl. eauto.
  - eauto.
Qed.

Lemma main_first_event w : exists t, fst (main w) = Call NewDate :: t.
Proof.
  unfold main, preamble. repeat apply bind_first_event. simpl. eauto.
Qed.

Lemma diagnostic_scan_since t ev : diagnostic ev -> scan_since t ev.
Proof. intros [_ H]. destruct ev as [[]| | | | | | | |]; simpl in *; tauto. Qed.

Lemma not_a_scan_since t ev : not_a_scan ev -> scan_since t ev.
Proof. intros H. destruct ev as [[]| | | | | | | |]; simpl in *; tauto. Qed.

Lemma build_references_scan w started inputs :
  sat (scan_since started) any_error (build_references w started inputs).
Proof. unfold build_references, buildRefs. repeat sat_step. Qed.

Lemma bake_scan w started inputs tok :
  sat (scan_since started) any_error (bake w started inputs tok).
Proof.
  unfold bake, passes.
  sat_step.
  { eapply sat_weaken; [| |apply prepare_sat];
      [apply diagnostic_scan_since | exact (fun _ _ => I)]. }
  sat_step.
  { eapply sat_weaken; [| |apply print_pass_sat];
      [apply not_a_scan_since | exact (fun _ _ => I)]. }
  sat_step.
  { unfold exec_pass. repeat sat_step. }
  sat_step.
  { eapply sat_weaken; [| |apply metadata_output_sat];
      [apply diagnostic_scan_since | exact (fun _ _ => I)]. }
  sat_step.
  { apply build_references_scan. }
  unfold rethrow. repeat sat_step.
Qed.

(** Every scan of the history store in the main phase asks for the records
    since the time read at the start. *)
Lemma main_scan w : sat (scan_since (now w)) any_error (main w).
Proof.
  unfold main. apply sat_bind_val.
  { eapply sat_weaken; [| |apply preamble_sat];
      [apply diagnostic_scan_since | exact (fun _ _ => I)]. }
  intros t [[s i] tok] H. apply preamble_value in H. subst s.
  sat_step; [sat_step|].
  destruct (negb a); [sat_step | apply bake_scan].
Qed.

(** C7: when the metadata gives no references and no builder name was
    given, [buildRefs] inspects the default builder, scans the history
    store for that builder's name, and returns the identifiers of exactly
    the records of that builder created at or after [since] (so of no
    record created before).  In the main phase [since] is the time read by
    the very first step. *)
Theorem C7_history_scan_since_start
  (w : World) (since : Z) (b : option jsstring) (cur : BuilderInfo) :
  resolveRefs w = Resolves None ->
  truthy_string b = false ->
  builder_inspect_default w = Resolves cur ->
  (exists refs,
     buildRefs w since b
     = ([Call ResolveRefs; Call (BuilderInspect None);
         Call (BuildxRefs (name cur) since)], Ok (Some refs))
     /\ forall x,
          In x refs
          <-> exists r, In r (refs_store w) /\ ref_id r = x
                        /\ ref_builder r = name cur
                        /\ (since <= ref_created r)%Z)
  /\ Forall (scan_since (now w)) (fst (main w))
  /\ exists t, fst (main w) = Call NewDate :: t.
Proof.
  intros H1 H2 H3. split; [|split].
  - eexists. split; [apply buildRefs_history; assumption|].
    intros x. apply Buildx_refs_keys.
  - apply main_scan.
  - apply main_first_event.
Qed.

Lemma C7_witness :
  exists refs,
    buildRefs history_world 1000 None
    = ([Call ResolveRefs; Call (BuilderInspect None);
        Call (BuildxRefs (js "X") 1000)], Ok (Some refs))
    /\ In (js "X/node0/new") refs
    /\ ~ In (js "X/node0/old") refs.
Proof.
  destruct (C7_history_scan_since_start history_world 1000 None
              {| name := js "X"; driver := js "docker-container" |}
              eq_refl eq_refl eq_refl) as [[refs [Heq Hiff]] _].
  exists refs. split; [exact Heq|]. split.
  - apply Hiff.
    exists {| ref_id := js "X/node0/new"; ref_builder := js "X";
              ref_created := 1001 |}.
    simpl. repeat split; auto. lia.
  - intros H. apply Hiff in H. destruct H as [r [Hin [Hid [Hb Hc]]]].
    simpl in Hin. destruct Hin as [<- | [<- | [<- | []]]];
      simpl in Hid, Hc; try discriminate; lia.
Defined.

Lemma for_each_info refs :
  for_each refs (fun ref => emit (Info ref)) = (map Info refs, Ok tt).
Proof.
  induction refs as [|x refs IH]; simpl; [reflexivity|].
  rewrite IH. reflexivity.
Qed.

(** The group of lines 151-161, by the way [buildRefs] ends. *)
Lemma build_references_eq w started inputs t r :
  buildRefs w started (builder inputs) = (t, r) ->
  build_references w started inputs
  = match r with
    | Ok (Some refs) =>
        (StartGroup (js "Build references")
           :: t ++ map Info refs ++ [SaveState (SetBuildRefs refs); EndGroup],
         Ok tt)
    | Ok None =>
        (StartGroup (js "Build references")
           :: t ++ [Warning (js "No build refs found"); EndGroup],
         Ok tt)
    | Throw e => (StartGroup (js "Build references") :: t ++ [EndGroup], Throw e)
    end.
Proof.
  intros H. unfold build_references. rewrite H.
  destruct r as [[refs|]|e].
  - cbn [bind]. rewrite for_each_info. cbn [bind emit group].
    rewrite <- !app_assoc. reflexivity.
  - cbn [bind emit group]. rewrite <- !app_assoc. reflexivity.
  - reflexivity.
Qed.

Lemma buildRefs_never_undefined w since b t :
  buildRefs w since b <> (t, Ok None).
Proof.
  unfold buildRefs.
  destruct (resolveRefs w) as [[refs|]|msg]; simpl; try discriminate.
  destruct (negb (truthy_string b)); simpl; try discriminate.
  destruct (builder_inspect_default w); simpl; discriminate.
Qed.

(** Nothing in the group of lines 151-161 is a warning: the branch of
    line 159 is never taken. *)
Lemma build_references_never_warns w started inputs :
  Forall not_a_warning (fst (build_references w started inputs)).
Proof.
  assert (H : sat not_a_warning any_error (build_references w started inputs)).
  { unfold build_references. sat_step. apply sat_bind_val.
    - eapply sat_weaken; [| |apply buildRefs_sat];
        [intros ? []; auto | exact (fun _ _ => I)].
    - intros t [refs|] H; [repeat sat_step|].
      exfalso. exact (buildRefs_never_undefined _ _ _ _ H). }
  exact (proj1 H).
Qed.

(** C10: [buildRefs] never ends with [undefined]; an empty array from the
    metadata is returned as it is, after the one call that reads it; and
    whenever [buildRefs] ends with an array, the group of lines 151-161
    logs each reference and saves the array with [setBuildRefs]. *)
Theorem C10_buildRefs_always_array
  (w : World) (startedTime : Z) (inputs : Inputs)
  (t : trace) (r : result (option (list jsstring))) :
  buildRefs w startedTime (builder inputs) = (t, r) ->
  r <> Ok None
  /\ (resolveRefs w = Resolves (Some []) ->
      t = [Call ResolveRefs] /\ r = Ok (Some []))
  /\ (forall refs,
        r = Ok (Some refs) ->
        build_references w startedTime inputs
        = (StartGroup (js "Build references")
             :: t ++ map Info refs ++ [SaveState (SetBuildRefs refs); EndGroup],
           Ok tt)).
Proof.
  intros H. split; [|split].
  - intros ->. exact (buildRefs_never_undefined _ _ _ _ H).
  - intros Hm. unfold buildRefs in H. rewrite Hm in H. simpl in H.
    injection H as <- <-. auto.
  - intros refs ->. rewrite (build_references_eq _ _ _ _ _ H). reflexivity.
Qed.

Lemma C10_witness :
  buildRefs empty_metadata_world 1000 (Some (js "X"))
  = ([Call ResolveRefs], Ok (Some []))
  /\ build_references empty_metadata_world 1000 (sample_inputs (Some (js "X")))
     = ([StartGroup (js "Build references"); Call ResolveRefs;
         SaveState (SetBuildRefs []); EndGroup], Ok tt).
Proof.
  destruct (C10_buildRefs_always_array empty_metadata_world 1000
              (sample_inputs (Some (js "X")))
              [Call ResolveRefs] (Ok (Some [])) eq_refl)
    as [_ [_ H3]].
  split; [reflexivity|].
  exact (H3 [] eq_refl).
Defined.

(** C5, at a run that leaves no trace (no metadata references, empty
    history store): the resolver returns the empty array, the group of
    lines 151-161 saves it with [setBuildRefs] and logs no warning, and
    the main phase ends without an error and without any warning. *)
Theorem C5_empty_refs_saved_without_warning :
  build_references traceless_world 1000 (sample_inputs (Some (js "X")))
  = ([StartGroup (js "Build references"); Call ResolveRefs;
      Call (BuildxRefs (js "X") 1000);
      SaveState (SetBuildRefs []); EndGroup], Ok tt)
  /\ snd (main traceless_world) = Ok tt
  /\ In (SaveState (SetBuildRefs [])) (fst (main traceless_world))
  /\ Forall not_a_warning (fst (main traceless_world)).
Proof.
  split; [reflexivity|]. split; [reflexivity|]. split.
  - vm_compute. tauto.
  - vm_compute. repeat constructor.
Qed.

(** ** The order of steps in the main phase *)

Lemma bind_throw_inv {A B} P (E : Error -> Prop) (m : M A) (f : A -> M B) t e :
  sat P E m -> ~ E e -> bind m f = (t, Throw e) ->
  exists t1 a t2, m = (t1, Ok a) /\ f a = (t2, Throw e) /\ t = t1 ++ t2.
Proof.
  intros [_ He] Hne. destruct m as [t1 [a|e1]]; simpl in *.
  - destruct (f a) as [t2 r] eqn:Hf. intros [= <- ->].
    exists t1, a, t2. auto.
  - intros [= <- <-]. exfalso. apply Hne. apply He. reflexivity.
Qed.

Lemma deferred_not_from_callee e : thrown_by e = ByMain 139 -> ~ from_callee e.
Proof. intros H [c Hc]. congruence. Qed.

Lemma deferred_not_other e : thrown_by e = ByMain 139 -> ~ not_deferred e.
Proof. intros H Hn. exact (Hn H). Qed.

Lemma call_sat {A} c (o : outcome A) :
  sat (fun _ => True) from_callee (call_ext c o).
Proof. apply sat_call; [exact I | intros ?; eexists; reflexivity]. Qed.

Lemma exec_pass_sat w inputs p :
  sat (fun _ => True) from_callee (exec_pass w inputs p).
Proof. unfold exec_pass. repeat sat_step. Qed.

Lemma exec_pass_ok_inv w inputs p t err :
  exec_pass w inputs p = (t, Ok err) ->
  exists out, process_bake w = Resolves out
              /\ err = exec_pass_error out
              /\ t = [Call (bake_call inputs p)].
Proof.
  unfold exec_pass, exec_outcome.
  destruct (process_bake w) as [out|msg]; simpl; [|discriminate].
  intros [= <- <-]. eauto.
Qed.

Lemma metadata_output_first w :
  exists t, fst (metadata_output w) = Call ResolveMetadata :: t.
Proof.
  unfold metadata_output. apply bind_first_event.
  rewrite call_trace. eauto.
Qed.

Lemma build_references_first w started inputs :
  exists t,
    fst (build_references w started inputs)
    = StartGroup (js "Build references") :: Call ResolveRefs :: t.
Proof.
  unfold build_references. rewrite group_eq. cbn [fst].
  destruct (bind_first_event
              (buildRefs w started (builder inputs))
              (fun refs =>
                 match refs with
                 | Some refs =>
                     for_each refs (fun ref => emit (Info ref)) ;;
                     emit (SaveState (SetBuildRefs refs))
                 | None => emit (Warning (js "No build refs found"))
                 end)
              (Call ResolveRefs)) as [t Ht].
  { unfold buildRefs. apply bind_first_event. rewrite call_trace. eauto. }
  rewrite Ht. simpl. eauto.
Qed.

Lemma main_available w tp s i tok :
  preamble w = (tp, Ok (s, i, tok)) ->
  buildx_isAvailable w = Resolves true ->
  main w = (tp ++ Call BuildxIsAvailable :: fst (bake w s i tok),
            snd (bake w s i tok)).
Proof.
  intros Hp Ha. unfold main. rewrite Hp, Ha. simpl.
  destruct (bake w s i tok). reflexivity.
Qed.

(** If the main phase ends by throwing the error made at line 139, the
    execution pass ran to its end and classified that error, and after it
    came the reading of the metadata and then the resolution of the build
    references. *)
Lemma main_deferred_after_resolution w t e :
  main w = (t, Throw e) -> thrown_by e = ByMain 139 ->
  exists i p out t1 t2 t3,
    t = t1 ++ Call (bake_call i p) :: Call ResolveMetadata
           :: t2 ++ Call ResolveRefs :: t3
    /\ process_bake w = Resolves out
    /\ exec_pass_error out = Some e.
Proof.
  intros Hm Ho.
  pose proof (deferred_not_from_callee _ Ho) as Hc.
  pose proof (deferred_not_other _ Ho) as Hd.
  unfold main in Hm.
  apply (bind_throw_inv _ _ _ _ _ _ (preamble_sat w) Hc) in Hm.
  destruct Hm as (tp & [[s i] tok] & ? & _ & Hm & ->).
  apply (bind_throw_inv _ _ _ _ _ _ (call_sat _ _) Hc) in Hm.
  destruct Hm as (ta & avail & ? & _ & Hm & ->).
  destruct avail; simpl in Hm; [|discriminate].
  unfold bake in Hm.
  apply (bind_throw_inv _ _ _ _ _ _ (prepare_sat w i tok) Hd) in Hm.
  destruct Hm as (t0 & p & ? & _ & Hm & ->).
  unfold passes in Hm.
  apply (bind_throw_inv _ _ _ _ _ _ (print_pass_sat w i p) Hc) in Hm.
  destruct Hm as (tq & [] & ? & _ & Hm & ->).
  apply (bind_throw_inv _ _ _ _ _ _ (exec_pass_sat w i p) Hc) in Hm.
  destruct Hm as (tx & err & ? & Hx & Hm & ->).
  apply exec_pass_ok_inv in Hx. destruct Hx as (out & Hout & -> & ->).
  apply (bind_throw_inv _ _ _ _ _ _ (metadata_output_sat w) Hc) in Hm.
  destruct Hm as (tm & [] & ? & Hmeta & Hm & ->).
  apply (bind_throw_inv _ _ _ _ _ _ (build_references_sat w s i) Hc) in Hm.
  destruct Hm as (tb & [] & ? & Hrefs & Hm & ->).
  destruct (metadata_output_first w) as [tm' Htm].
  rewrite Hmeta in Htm. simpl in Htm. subst tm.
  destruct (build_references_first w s i) as [tb' Htb].
  rewrite Hrefs in Htb. simpl in Htb. subst tb.
  unfold rethrow in Hm. destruct (exec_pass_error out) as [e'|] eqn:He;
    [|discriminate].
  injection Hm as <- <-.
  exists i, p, out, (tp ++ ta ++ t0 ++ tq),
    (tm' ++ [StartGroup (js "Build references")]), tb'.
  split; [|split; [exact Hout | exact He]].
  rewrite app_nil_r. repeat rewrite <- app_assoc. simpl.
  repeat rewrite <- app_assoc. reflexivity.
Qed.

(** If everything up to the execution pass succeeds, the execution pass is
    classified as a failure, and the two resolutions succeed, the main
    phase runs all of them and then throws the classified error. *)
Lemma main_raises_deferred_error w tp s i tok t0 p tq out e tm tb :
  preamble w = (tp, Ok (s, i, tok)) ->
  buildx_isAvailable w = Resolves true ->
  prepare w i tok = (t0, Ok p) ->
  print_pass w i p = (tq, Ok tt) ->
  process_bake w = Resolves out ->
  exec_pass_error out = Some e ->
  metadata_output w = (tm, Ok tt) ->
  build_references w s i = (tb, Ok tt) ->
  main w = (tp ++ Call BuildxIsAvailable :: t0 ++ tq
               ++ Call (bake_call i p) :: tm ++ tb,
            Throw e).
Proof.
  intros Hp Ha H0 Hq Hout He Hm Hb.
  rewrite (main_available _ _ _ _ _ Hp Ha).
  unfold bake, passes. rewrite H0. cbn [bind].
  rewrite Hq. cbn [bind].
  rewrite (exec_pass_resolves _ i p _ Hout). cbn [bind].
  rewrite Hm. cbn [bind]. rewrite Hb. cbn [bind].
  rewrite He. simpl. rewrite app_nil_r. reflexivity.
Qed.

(** C2: when the main phase ends by throwing the error of the execution
    pass (the one made at line 139), that pass had run to its end and
    classified it, and between the pass and the throw came the reading of
    the metadata and then the resolution of the build references.  And
    when everything before the execution pass succeeds, the pass is
    classified as a failure and both resolutions succeed, the main phase
    runs them all and throws the classified error last. *)
Theorem C2_error_deferred_to_end (w : World) (t : trace) (r : result unit) :
  main w = (t, r) ->
  (forall e,
     r = Throw e -> thrown_by e = ByMain 139 ->
     exists i p out t1 t2 t3,
       t = t1 ++ Call (bake_call i p) :: Call ResolveMetadata
              :: t2 ++ Call ResolveRefs :: t3
       /\ process_bake w = Resolves out
       /\ exec_pass_error out = Some e)
  /\ (forall tp s i tok t0 p tq out e tm tb,
        preamble w = (tp, Ok (s, i, tok)) ->
        buildx_isAvailable w = Resolves true ->
        prepare w i tok = (t0, Ok p) ->
        print_pass w i p = (tq, Ok tt) ->
        process_bake w = Resolves out ->
        exec_pass_error out = Some e ->
        metadata_output w = (tm, Ok tt) ->
        build_references w s i = (tb, Ok tt) ->
        t = tp ++ Call BuildxIsAvailable :: t0 ++ tq
               ++ Call (bake_call i p) :: tm ++ tb
        /\ r = Throw e).
Proof.
  intros Hm. split.
  - intros e -> Ho. exact (main_deferred_after_resolution w t e Hm Ho).
  - intros tp s i tok t0 p tq out e tm tb Hp Ha H0 Hq Hout He Hmeta Hb.
    rewrite (main_raises_deferred_error w tp s i tok t0 p tq out e tm tb
               Hp Ha H0 Hq Hout He Hmeta Hb) in Hm.
    injection Hm as <- <-. auto.
Qed.

Lemma C2_witness :
  snd (main failing_world) = Throw boom_error
  /\ exists i p t1 t2 t3,
       fst (main failing_world)
       = t1 ++ Call (bake_call i p) :: Call ResolveMetadata
            :: t2 ++ Call ResolveRefs :: t3.
Proof.
  destruct (C2_error_deferred_to_end failing_world
              (fst (main failing_world)) (snd (main failing_world)) eq_refl)
    as [Hsafe Hlive].
  split.
  - refine (proj2 (Hlive (fst (preamble failing_world)) 1000%Z
                     (sample_inputs (Some (js "X"))) (js "token")
                     (fst (prepare failing_world (sample_inputs (Some (js "X")))
                             (js "token")))
                     sample_prepared _ failing_output boom_error _ _
                     eq_refl eq_refl eq_refl eq_refl eq_refl eq_refl
                     eq_refl eq_refl)).
  - destruct (Hsafe boom_error eq_refl eq_refl)
      as (i & p & out & t1 & t2 & t3 & H & _).
    exists i, p, t1, t2, t3. exact H.
Defined.

(** ** The two passes *)

Lemma not_a_run_of i p ev : not_a_run ev -> run_of i p ev.
Proof. destruct ev as [[]| | | | | | | |]; simpl; tauto. Qed.

Lemma not_a_run_not_execution ev : not_a_run ev -> not_the_execution_pass ev.
Proof. destruct ev as [[]| | | | | | | |]; simpl; tauto. Qed.

Lemma passes_runs w s i p : sat (run_of i p) any_error (passes w s i p).
Proof.
  unfold passes.
  sat_step. { unfold print_pass. repeat sat_step. }
  sat_step. { unfold exec_pass. repeat sat_step. }
  sat_step.
  { eapply sat_weaken; [| |apply metadata_output_sat];
      [intros ? []; apply not_a_run_of; assumption | exact (fun _ _ => I)]. }
  sat_step.
  { eapply sat_weaken; [| |apply build_references_sat];
      [apply not_a_run_of | exact (fun _ _ => I)]. }
  unfold rethrow. repeat sat_step.
Qed.

(** Either the build engine is never run, or its runs are the two passes
    over one prepared command. *)
Lemma main_runs_shape w :
  Forall not_a_run (fst (main w))
  \/ exists i p, Forall (run_of i p) (fst (main w)).
Proof.
  destruct (sat_ok _ _ _ (preamble_sat w))
    as [(tp & [[s i] tok] & Hp & Htp) | (tp & e & Hp & Htp & _)].
  2:{ left. unfold main. rewrite Hp. simpl.
      eapply Forall_impl; [|exact Htp]. intros ? []; assumption. }
  assert (Htp' : Forall not_a_run tp).
  { eapply Forall_impl; [|exact Htp]. intros ? []; assumption. }
  destruct (buildx_isAvailable w) as [[|]|msg] eqn:Ha.
  - rewrite (main_available w tp s i tok Hp Ha). cbn [fst].
    unfold bake.
    destruct (sat_ok _ _ _ (prepare_sat w i tok))
      as [(t0 & p & H0 & Ht0) | (t0 & e & H0 & Ht0 & _)]; rewrite H0.
    + right. exists i, p. rewrite bind_ok. cbn [fst].
      apply Forall_app. split.
      { eapply Forall_impl; [|exact Htp']. apply not_a_run_of. }
      constructor; [exact I|].
      apply Forall_app. split.
      { eapply Forall_impl; [|exact Ht0].
        intros ? []. apply not_a_run_of. assumption. }
      apply passes_runs.
    + left. rewrite bind_throw. cbn [fst].
      apply Forall_app. split; [exact Htp'|].
      constructor; [exact I|].
      eapply Forall_impl; [|exact Ht0]. intros ? []; assumption.
  - left. unfold main. rewrite Hp, Ha. simpl.
    apply Forall_app. split; [exact Htp' | repeat constructor].
  - left. unfold main. rewrite Hp, Ha. simpl.
    apply Forall_app. split; [exact Htp' | repeat constructor].
Qed.

(** In every run of the main phase, a print pass and an execution pass
    use the same command, directory and environment, and the arguments of
    the print pass are those of the execution pass followed by the one
    flag of line 126. *)
Lemma main_passes_agree w c1 a1 o1 c2 a2 o2 :
  In (Call (ExecExec c1 a1 o1)) (fst (main w)) ->
  In (Call (ExecGetExecOutput c2 a2 o2)) (fst (main w)) ->
  c1 = c2 /\ a1 = a2 ++ [js "--print"]
  /\ cwd o1 = cwd o2 /\ env o1 = env o2.
Proof.
  intros H1 H2.
  destruct (main_runs_shape w) as [H | (i & p & H)];
    rewrite Forall_forall in H.
  - destruct (H _ H1).
  - pose proof (H _ H1) as E1. pose proof (H _ H2) as E2.
    simpl in E1, E2. unfold print_call in E1. unfold bake_call in E2.
    injection E1 as -> -> ->. injection E2 as -> -> ->.
    simpl. auto.
Qed.

Lemma print_pass_fails w i p out :
  process_print w = Resolves out -> exitCode out <> 0%Z ->
  print_pass w i p
  = ([StartGroup (js "Bake definition"); Call (print_call i p); EndGroup],
     Throw {| message := exit_code_message w (command (buildCmd p)) (exitCode out);
              thrown_by := ByCall (print_call i p) |}).
Proof.
  intros H Hne. unfold print_pass, exec_outcome. rewrite H.
  cbn [ignoreReturnCode negb andb].
  destruct (Z.eqb_spec (exitCode out) 0); [contradiction|]. reflexivity.
Qed.

(** C6: when the print pass exits with a non-zero code, the main phase
    throws right there: the trace ends with the print pass, and holds no
    execution pass.  And in any run, the print pass has the command, the
    working directory and the environment of the execution pass, and the
    arguments of the execution pass followed by the flag [--print]. *)
Theorem C6_print_pass_failure_aborts
  (w : World) (tp : trace) (s : Z) (i : Inputs) (tok : jsstring)
  (t0 : trace) (p : Prepared) (out : ExecOutput) :
  preamble w = (tp, Ok (s, i, tok)) ->
  buildx_isAvailable w = Resolves true ->
  prepare w i tok = (t0, Ok p) ->
  process_print w = Resolves out ->
  exitCode out <> 0%Z ->
  main w
  = (tp ++ Call BuildxIsAvailable :: t0
        ++ [StartGroup (js "Bake definition"); Call (print_call i p); EndGroup],
     Throw {| message := exit_code_message w (command (buildCmd p)) (exitCode out);
              thrown_by := ByCall (print_call i p) |})
  /\ Forall not_the_execution_pass (fst (main w))
  /\ (forall w' c1 a1 o1 c2 a2 o2,
        In (Call (ExecExec c1 a1 o1)) (fst (main w')) ->
        In (Call (ExecGetExecOutput c2 a2 o2)) (fst (main w')) ->
        c1 = c2 /\ a1 = a2 ++ [js "--print"]
        /\ cwd o1 = cwd o2 /\ env o1 = env o2).
Proof.
  intros Hp Ha H0 Hout Hne.
  assert (Hmain : main w
    = (tp ++ Call BuildxIsAvailable :: t0
          ++ [StartGroup (js "Bake definition"); Call (print_call i p); EndGroup],
       Throw {| message := exit_code_message w (command (buildCmd p)) (exitCode out);
                thrown_by := ByCall (print_call i p) |})).
  { rewrite (main_available w tp s i tok Hp Ha).
    unfold bake, passes. rewrite H0. cbn [bind].
    rewrite (print_pass_fails w i p out Hout Hne). reflexivity. }
  split; [exact Hmain|]. split.
  - rewrite Hmain. cbn [fst].
    destruct (preamble_sat w) as [Htp _]. rewrite Hp in Htp.
    destruct (prepare_sat w i tok) as [Ht0 _]. rewrite H0 in Ht0.
    apply Forall_app. split.
    { eapply Forall_impl; [|exact Htp].
      intros ? []. apply not_a_run_not_execution. assumption. }
    constructor; [exact I|].
    apply Forall_app. split.
    { eapply Forall_impl; [|exact Ht0].
      intros ? []. apply not_a_run_not_execution. assumption. }
    repeat constructor.
  - intros w'. apply main_passes_agree.
Qed.

Lemma C6_witness :
  snd (main bad_plan_world)
  = Throw {| message := js "The process failed";
             thrown_by :=
               ByCall (ExecExec (js "docker")
                         [js "buildx"; js "bake"; js "app"; js "--print"]
                         {| cwd := js ".";
                            env := [(js "HOME", js "/home/runner");
                                    (js "BUILDX_BAKE_GIT_AUTH_TOKEN", js "token")];
                            ignoreReturnCode := false |}) |}
  /\ Forall not_the_execution_pass (fst (main bad_plan_world))
  /\ forall c a o,
       In (Call (ExecExec c a o)) (fst (main traceless_world)) ->
       c = js "docker" /\ a = [js "buildx"; js "bake"; js "app"; js "--print"].
Proof.
  destruct (C6_print_pass_failure_aborts bad_plan_world
              (fst (preamble bad_plan_world)) 1000%Z
              (sample_inputs (Some (js "X"))) (js "token")
              (fst (prepare bad_plan_world (sample_inputs (Some (js "X")))
                      (js "token")))
              sample_prepared
              {| exitCode := 1; stdout := []; stderr := js "ERROR: bad plan" |}
              eq_refl eq_refl eq_refl eq_refl ltac:(discriminate))
    as [Hmain [Hno Hagree]].
  split; [rewrite Hmain; reflexivity|].
  split; [exact Hno|].
  intros c a o Hin.
  destruct (Hagree traceless_world c a o (js "docker")
              [js "buildx"; js "bake"; js "app"]
              {| cwd := js ".";
                 env := [(js "HOME", js "/home/runner");
                         (js "BUILDX_BAKE_GIT_AUTH_TOKEN", js "token")];
                 ignoreReturnCode := true |} Hin)
    as [Hc [Ha _]].
  - vm_compute. tauto.
  - split; [exact Hc | exact Ha].
Defined.

(** ** The post phase *)

Lemma remove_tmpDir_eq st w :
  remove_tmpDir st w
  = match st_tmpDir st with
    | [] => ([], Ok tt)
    | _ :: _ =>
        (StartGroup (js "Removing temp folder " ++ st_tmpDir st)
           :: Call (RmSync (st_tmpDir st) true) :: [EndGroup],
         snd (call_ext (RmSync (st_tmpDir st) true) (rmSync w)))
    end.
Proof.
  unfold remove_tmpDir. destruct (st_tmpDir st) as [|c d]; [reflexivity|].
  cbn [length Nat.ltb Nat.leb]. rewrite group_eq, call_trace. reflexivity.
Qed.

Lemma remove_tmpDir_sat st w :
  sat not_a_summary_step
    (fun e => thrown_by e = ByCall (RmSync (st_tmpDir st) true))
    (remove_tmpDir st w).
Proof.
  unfold remove_tmpDir. sat_step; [|sat_step].
  sat_step. apply sat_call; [exact I | reflexivity].
Qed.

Lemma bind_ret_tt {B} (f : unit -> M B) : bind (ret tt) f = f tt.
Proof. unfold ret. rewrite bind_ok. simpl. destruct (f tt); reflexivity. Qed.

(** C8: with no build references saved, the post phase is the removal of
    the temporary directory alone: it makes no export, upload or summary
    call; with no directory saved it does nothing, and with a directory
    saved its events are the group that removes it recursively. *)
Theorem C8_no_refs_no_summary (st : PersistedState) (w : PostWorld) :
  st_buildRefs st = [] ->
  post st w = remove_tmpDir st w
  /\ Forall not_a_summary_step (fst (post st w))
  /\ ((st_tmpDir st = [] /\ post st w = ([], Ok tt))
      \/ (st_tmpDir st <> []
          /\ fst (post st w)
             = [StartGroup (js "Removing temp folder " ++ st_tmpDir st);
                Call (RmSync (st_tmpDir st) true); EndGroup])).
Proof.
  intros H.
  assert (E : post st w = remove_tmpDir st w).
  { unfold post, build_summary. rewrite H. cbn [length Nat.ltb Nat.leb].
    apply bind_ret_tt. }
  split; [exact E|]. rewrite E. split.
  - apply remove_tmpDir_sat.
  - rewrite remove_tmpDir_eq.
    destruct (st_tmpDir st) as [|c d]; [left; auto|].
    right. split; [discriminate | reflexivity].
Qed.

Lemma C8_witness :
  post (sample_state [] (js "/tmp/x")) (sample_post_world (Rejects (js "no export")))
  = ([StartGroup (js "Removing temp folder /tmp/x");
      Call (RmSync (js "/tmp/x") true); EndGroup], Ok tt)
  /\ post (sample_state [] []) (sample_post_world (Rejects (js "no export")))
     = ([], Ok tt).
Proof.
  split.
  - rewrite (proj1 (C8_no_refs_no_summary (sample_state [] (js "/tmp/x"))
                      (sample_post_world (Rejects (js "no export"))) eq_refl)).
    reflexivity.
  - rewrite (proj1 (C8_no_refs_no_summary (sample_state [] [])
                      (sample_post_world (Rejects (js "no export"))) eq_refl)).
    reflexivity.
Defined.

Lemma build_summary_chain st w td :
  st_buildRefs st <> [] ->
  summary_disabled w = (td, Ok false) ->
  is_cloud (st_builder st) = false ->
  build_summary st w
  = (StartGroup (js "Generating build summary")
       :: td ++ fst (summary_chain st w)
       ++ match snd (summary_chain st w) with
          | Ok _ => []
          | Throw e => [Warning (message e)]
          end
       ++ [EndGroup],
     Ok tt).
Proof.
  intros Hr Hd Hc. unfold build_summary.
  destruct (st_buildRefs st) as [|r refs]; [congruence|].
  cbn [length Nat.ltb Nat.leb]. rewrite Hd, Hc. cbn [bind].
  destruct (summary_chain st w) as [tc [[]|e]]; simpl;
    rewrite <- ?app_assoc; reflexivity.
Qed.

(** No error of the post phase comes out of the export, upload and
    summary chain. *)
Lemma post_sat st w : sat (fun _ => True) not_from_chain (post st w).
Proof.
  unfold post, build_summary, summary_disabled, remove_tmpDir.
  sat_step.
  - sat_step; [|sat_step]. sat_step. sat_step.
    + sat_step; [|sat_step]. apply sat_call; [exact I | intros ?; exact I].
    + sat_step; [sat_step|]. sat_step; [sat_step|].
      apply sat_try_catch; [|intros ?; sat_step].
      apply Forall_forall. intros ? _. exact I.
  - sat_step; [|sat_step]. sat_step.
    apply sat_call; [exact I | intros ?; exact I].
Qed.

(** C9: when the export, upload and summary chain is reached, whatever
    fails in it ends up as a warning carrying the failure's message; the
    group closes, the removal of the temporary directory follows, and the
    post phase ends the way that removal ends.  So an error of the post
    phase can only be the removal's own, and a saved directory is always
    removed.  In no run at all does an error of the post phase come out of
    the chain. *)
Theorem C9_summary_failure_is_a_warning
  (st : PersistedState) (w : PostWorld) (td : trace) :
  st_buildRefs st <> [] ->
  summary_disabled w = (td, Ok false) ->
  is_cloud (st_builder st) = false ->
  post st w
  = (StartGroup (js "Generating build summary")
       :: td ++ fst (summary_chain st w)
       ++ match snd (summary_chain st w) with
          | Ok _ => []
          | Throw e => [Warning (message e)]
          end
       ++ EndGroup :: fst (remove_tmpDir st w),
     snd (remove_tmpDir st w))
  /\ (forall e, snd (post st w) = Throw e ->
                thrown_by e = ByCall (RmSync (st_tmpDir st) true))
  /\ (st_tmpDir st <> [] ->
      In (Call (RmSync (st_tmpDir st) true)) (fst (remove_tmpDir st w)))
  /\ (forall st' w' e, snd (post st' w') = Throw e -> not_from_chain e).
Proof.
  intros Hr Hd Hc.
  assert (E : post st w
    = (StartGroup (js "Generating build summary")
         :: td ++ fst (summary_chain st w)
         ++ match snd (summary_chain st w) with
            | Ok _ => []
            | Throw e => [Warning (message e)]
            end
         ++ EndGroup :: fst (remove_tmpDir st w),
       snd (remove_tmpDir st w))).
  { unfold post. rewrite (build_summary_chain st w td Hr Hd Hc).
    rewrite bind_ok. cbn [fst snd]. f_equal. simpl.
    rewrite <- !app_assoc. reflexivity. }
  split; [exact E|]. split; [|split].
  - rewrite E. cbn [snd]. apply (proj2 (remove_tmpDir_sat st w)).
  - intros Hne. rewrite remove_tmpDir_eq.
    destruct (st_tmpDir st) as [|c d]; [congruence|]. simpl. auto.
  - intros st' w'. apply (proj2 (post_sat st' w')).
Qed.

Lemma C9_witness :
  post (sample_state [js "abc123"] (js "/tmp/x"))
       (sample_post_world (Rejects (js "export failed")))
  = ([StartGroup (js "Generating build summary");
      Call (HistoryExport [js "abc123"]);
      Warning (js "export failed");
      EndGroup;
      StartGroup (js "Removing temp folder /tmp/x");
      Call (RmSync (js "/tmp/x") true);
      EndGroup], Ok tt).
Proof.
  rewrite (proj1 (C9_summary_failure_is_a_warning
                    (sample_state [js "abc123"] (js "/tmp/x"))
                    (sample_post_world (Rejects (js "export failed"))) []
                    ltac:(discriminate) eq_refl eq_refl)).
  reflexivity.
Defined.

(** ** The message of the execution-pass error *)

Lemma last_nonblank_line_nonempty s l :
  last_nonblank_line s = Some l -> s <> [].
Proof. intros H ->. discriminate. Qed.

(** C3, amended: when the execution pass is classified as a failure and
    stderr has a line that is not blank, the message of the error is the
    prefix [buildx bake failed with: ] followed by the last such line with
    the white space at both its ends removed. *)
Theorem C3_message_is_last_line_trimmed (out : ExecOutput) (line : jsstring) :
  exitCode out <> 0%Z ->
  last_nonblank_line (stderr out) = Some line ->
  exec_pass_error out
  = Some {| message := js "buildx bake failed with: " ++ trim line;
            thrown_by := ByMain 139 |}.
Proof.
  intros Hc Hl. unfold exec_pass_error.
  rewrite (stderr_detail_last_line _ _ Hl).
  apply last_nonblank_line_nonempty in Hl.
  destruct (stderr out); [congruence|].
  destruct (Z.eqb_spec (exitCode out) 0); [contradiction|]. reflexivity.
Qed.

Lemma C3_witness :
  exec_pass_error
    {| exitCode := 1; stdout := [];
       stderr := js "#1 building" ++ LF ++ js "  ERROR: boom  " ++ LF ++ LF |}
  = Some {| message := js "buildx bake failed with: ERROR: boom";
            thrown_by := ByMain 139 |}.
Proof.
  exact (C3_message_is_last_line_trimmed
           {| exitCode := 1; stdout := [];
              stderr := js "#1 building" ++ LF ++ js "  ERROR: boom  " ++ LF ++ LF |}
           (js "  ERROR: boom  ") ltac:(discriminate) eq_refl).
Defined.

(** C3 as stated fails: for exit code 1 and the stderr text made of two
    spaces, [boom] and a line feed, the last non-empty line with trailing
    white space trimmed is two spaces and [boom], while the message of the
    error is the prefix followed by [boom] alone. *)
Lemma C3_counterexample :
  ~ message_as_claimed
      {| exitCode := 1; stdout := []; stderr := js "  boom" ++ LF |}.
Proof.
  intros H.
  destruct (H {| message := js "buildx bake failed with: boom";
                 thrown_by := ByMain 139 |} eq_refl) as [E | E];
    discriminate E.
Qed.

(** The fallback text of line 139 is never used: whatever stderr holds,
    the text after the prefix is what the pattern matched, trimmed. *)
Lemma stderr_detail_never_falls_back s :
  exists m, String_match s last_line_re = Some m /\ stderr_detail s = trim m.
Proof.
  destruct (last_line_re_always_matches s) as [m H].
  exists m. split; [exact H|]. unfold stderr_detail. rewrite H. reflexivity.
Qed.

(** For exit code 1 and a stderr of one space, the message is the bare
    prefix. *)
Example blank_stderr_message :
  exec_pass_error {| exitCode := 1; stdout := []; stderr := js " " |}
  = Some {| message := js "buildx bake failed with: ";
            thrown_by := ByMain 139 |}.
Proof. reflexivity. Qed.

(** ** More on the message of line 139 *)

Section Message.

Lemma drop_while_idem p s : drop_while p (drop_while p s) = drop_while p s.
Proof.
  induction s as [|c s IH]; [reflexivity|].
  simpl. destruct (p c) eqn:Hc; [exact IH|]. simpl. rewrite Hc. reflexivity.
Qed.

Lemma forallb_rev (p : char16 -> bool) s : forallb p (rev s) = forallb p s.
Proof.
  destruct (forallb p s) eqn:H.
  - rewrite forallb_forall in *. intros x Hx. apply H. apply in_rev. exact Hx.
  - destruct (forallb p (rev s)) eqn:H'; [|reflexivity].
    rewrite forallb_forall in H'.
    assert (forallb p s = true); [|congruence].
    apply forallb_forall. intros x Hx. apply H'. apply in_rev.
    rewrite rev_involutive. exact Hx.
Qed.

Lemma forallb_trim p s : forallb p s = true -> forallb p (trim s) = true.
Proof.
  intros H. unfold trim, trimEnd, trimStart.
  rewrite forallb_rev. apply forallb_drop_while.
  rewrite forallb_rev. apply forallb_drop_while. exact H.
Qed.

Lemma forallb_take_while p s : forallb p (take_while p s) = true.
Proof.
  induction s as [|c s IH]; [reflexivity|].
  simpl. destruct (p c) eqn:Hc; [|reflexivity]. simpl. rewrite Hc. exact IH.
Qed.

Lemma trimEnd_keeps_head c s :
  is_space c = false -> exists u, trimEnd (c :: s) = c :: u.
Proof.
  intros Hc. unfold trimEnd. simpl rev.
  destruct (forallb is_space (rev s)) eqn:Hs.
  - rewrite drop_while_all by exact Hs. simpl. rewrite Hc. simpl. eauto.
  - rewrite drop_while_some by exact Hs. rewrite rev_app_distr. simpl. eauto.
Qed.

Lemma trimEnd_idem s : trimEnd (trimEnd s) = trimEnd s.
Proof.
  unfold trimEnd. rewrite rev_involutive, drop_while_idem. reflexivity.
Qed.

(** Trimming a trimmed text changes nothing. *)
Lemma trim_idem s : trim (trim s) = trim s.
Proof.
  unfold trim at 1.
  assert (H : trimStart (trim s) = trim s).
  { unfold trim.
    assert (Hz : trimStart s = drop_while is_space s) by reflexivity.
    destruct (drop_while is_space s) as [|c z] eqn:Hd; rewrite Hz.
    - reflexivity.
    - apply drop_while_head in Hd.
      destruct (trimEnd_keeps_head c z Hd) as [u ->].
      unfold trimStart. simpl. rewrite Hd. reflexivity. }
  rewrite H. unfold trim. apply trimEnd_idem.
Qed.

Lemma regexp_exec_last_line_shape s m :
  regexp_exec last_line_re s = Some m -> line_then_blank m = true.
Proof.
  induction s as [|c s IH]; rewrite regexp_exec_last_line.
  - simpl. intros [= <-]. reflexivity.
  - destruct (line_then_blank (c :: s)) eqn:H; [intros [= <-]; exact H | exact IH].
Qed.

(** What line 139 extracts is the trimmed text of a single line. *)
Lemma stderr_detail_one_line s :
  forallb is_dot (stderr_detail s) = true
  /\ trim (stderr_detail s) = stderr_detail s.
Proof.
  destruct (last_line_re_always_matches s) as [m Hm].
  unfold stderr_detail. rewrite Hm. split; [|apply trim_idem].
  apply regexp_exec_last_line_shape in Hm. unfold line_then_blank in Hm.
  rewrite <- (take_drop_while is_dot m).
  rewrite trim_blank_suffix by exact Hm.
  apply forallb_trim. apply forallb_take_while.
Qed.

End Message.

(** X1: whatever stderr holds, the message of a classified failure is the
    prefix of line 139 followed by a text that has no line terminator in it
    and no white space at either end. *)
Theorem message_is_prefix_and_one_trimmed_line (out : ExecOutput) (e : Error) :
  exec_pass_error out = Some e ->
  exists d,
    message e = the_prefix ++ d
    /\ forallb is_dot d = true
    /\ trim d = d
    /\ thrown_by e = ByMain 139.
Proof.
  unfold exec_pass_error.
  destruct (_ && _); [|discriminate].
  intros [= <-]. exists (stderr_detail (stderr out)).
  destruct (stderr_detail_one_line (stderr out)) as [H1 H2].
  repeat split; assumption.
Qed.

Lemma message_is_prefix_and_one_trimmed_line_witness :
  exists d,
    message boom_error = the_prefix ++ d
    /\ forallb is_dot d = true /\ trim d = d.
Proof.
  destruct (message_is_prefix_and_one_trimmed_line failing_output boom_error
              eq_refl) as (d & H1 & H2 & H3 & _).
  exists d. repeat split; assumption.
Defined.

(** X2: when the exit code is non-zero and stderr is non-empty but holds
    white space only, the failure is still declared, and its message is
    the bare prefix of line 139: the generic text is not used. *)
Theorem blank_stderr_gives_bare_prefix (out : ExecOutput) :
  exitCode out <> 0%Z ->
  stderr out <> [] ->
  forallb is_space (stderr out) = true ->
  exec_pass_error out
  = Some {| message := the_prefix; thrown_by := ByMain 139 |}.
Proof.
  intros Hc Hne Hb. unfold exec_pass_error.
  rewrite (proj2 (stderr_detail_blank _ Hb)).
  destruct (stderr out); [congruence|].
  destruct (Z.eqb_spec (exitCode out) 0); [contradiction|].
  simpl. reflexivity.
Qed.

Lemma blank_stderr_gives_bare_prefix_witness :
  exec_pass_error
    {| exitCode := 2; stdout := js "ok"; stderr := js "  " ++ LF ++ [9%N] |}
  = Some {| message := the_prefix; thrown_by := ByMain 139 |}.
Proof.
  exact (blank_stderr_gives_bare_prefix
           {| exitCode := 2; stdout := js "ok"; stderr := js "  " ++ LF ++ [9%N] |}
           ltac:(discriminate) ltac:(discriminate) eq_refl).
Defined.

(** ** The setters and the log groups of a run *)

Section Observations.

Lemma setters_app t1 t2 : setters (t1 ++ t2) = setters t1 ++ setters t2.
Proof.
  induction t1 as [|ev t1 IH]; [reflexivity|].
  destruct ev; simpl; rewrite ?IH; reflexivity.
Qed.

Lemma setters_none t : Forall not_a_save t -> setters t = [].
Proof.
  induction 1 as [|ev t Hev _ IH]; [reflexivity|].
  destruct ev; simpl in *; try exact IH. contradiction.
Qed.

Lemma saves_quiet {A} E (m : M A) : sat not_a_save E m -> saves [] m.
Proof.
  intros [H _]. unfold saves. rewrite (setters_none _ H).
  destruct (snd m); [reflexivity | exists []; reflexivity].
Qed.

Lemma saves_emit s : saves [setter_of s] (emit (SaveState s)).
Proof. reflexivity. Qed.

Lemma saves_throw {A} L e : saves L (@throw A e).
Proof. exists L. reflexivity. Qed.

Lemma saves_bind_val {A B} L1 L2 (m : M A) (f : A -> M B) :
  saves L1 m -> (forall t a, m = (t, Ok a) -> saves L2 (f a)) ->
  saves (L1 ++ L2) (bind m f).
Proof.
  unfold saves. destruct m as [t [a|e]]; simpl.
  - intros H1 H2. specialize (H2 t a eq_refl).
    destruct (f a) as [t' [b|e']]; simpl in *; rewrite setters_app.
    + congruence.
    + destruct H2 as [rest H2]. exists rest.
      rewrite <- app_assoc. congruence.
  - intros [rest H1] _. exists (rest ++ L2).
    rewrite app_assoc. congruence.
Qed.

Lemma saves_bind {A B} L1 L2 (m : M A) (f : A -> M B) :
  saves L1 m -> (forall a, saves L2 (f a)) -> saves (L1 ++ L2) (bind m f).
Proof. intros H1 H2. apply saves_bind_val; auto. Qed.

Lemma saves_group {A} L title (m : M A) : saves L m -> saves L (group title m).
Proof.
  unfold saves. rewrite group_eq. cbn [fst snd setters].
  rewrite setters_app. simpl. rewrite app_nil_r. auto.
Qed.

Lemma groups_from_app b t1 t2 :
  groups_from b (t1 ++ t2)
  = match groups_from b t1 with
    | Some b' => groups_from b' t2
    | None => None
    end.
Proof.
  revert b. induction t1 as [|ev t1 IH]; intros b; [reflexivity|].
  destruct ev; simpl; try apply IH; destruct b; auto.
Qed.

Lemma groups_from_flat b t : Forall not_a_group t -> groups_from b t = Some b.
Proof.
  induction 1 as [|ev t Hev _ IH]; [reflexivity|].
  destruct ev; simpl in *; try exact IH; contradiction.
Qed.

Lemma wg_flat {A} E (m : M A) :
  sat not_a_group E m -> well_grouped (fst m).
Proof. intros [H _]. apply groups_from_flat. exact H. Qed.

Lemma wg_bind {A B} (m : M A) (f : A -> M B) :
  well_grouped (fst m) -> (forall a, well_grouped (fst (f a))) ->
  well_grouped (fst (bind m f)).
Proof.
  unfold well_grouped. destruct m as [t [a|e]]; simpl; intros H1 H2; [|exact H1].
  specialize (H2 a). destruct (f a) as [t' r]. simpl in *.
  rewrite groups_from_app, H1. exact H2.
Qed.

Lemma wg_group {A} E title (m : M A) :
  sat not_a_group E m -> well_grouped (fst (group title m)).
Proof.
  intros [H _]. unfold well_grouped. rewrite group_eq. cbn [fst groups_from].
  rewrite groups_from_app, (groups_from_flat true _ H). reflexivity.
Qed.

End Observations.

Lemma sat_events {A} P E (m : M A) : sat P E m -> Forall P (fst m).
Proof. intros [H _]. exact H. Qed.

Ltac flat_step := first [sat_step | apply (sat_events _ any_error)].

Ltac wg_step :=
  first
    [ match goal with
      | |- well_grouped (fst (if ?b then _ else _)) => destruct b
      | |- well_grouped (fst (match ?x with _ => _ end)) => destruct x
      end
    | apply wg_bind; [|intros ?]
    | apply (wg_group any_error); solve [repeat flat_step]
    | apply (wg_flat any_error); solve [repeat flat_step] ].

(** X3: in every run of the main phase and of the post phase, also one
    that ends by throwing, each log group that is opened is closed again,
    and no group is opened inside another. *)
Theorem groups_are_closed_and_flat (w : World) (st : PersistedState) (pw : PostWorld) :
  well_grouped (fst (main w)) /\ well_grouped (fst (post st pw)).
Proof.
  split.
  - unfold main, preamble, runtime_token_acs, docker_info, proxy_configuration,
      bake, prepare, passes, print_pass, exec_pass, metadata_output,
      build_references, buildRefs, rethrow.
    repeat wg_step.
  - unfold post, build_summary, summary_disabled, summary_chain, remove_tmpDir.
    repeat wg_step.
Qed.

Lemma saves_bind_eq {A B} L L1 L2 (m : M A) (f : A -> M B) :
  saves L1 m -> (forall a, saves L2 (f a)) -> L = L1 ++ L2 ->
  saves L (bind m f).
Proof. intros H1 H2 ->. apply saves_bind; assumption. Qed.

Lemma saves_emit_as k s : setter_of s = k -> saves [k] (emit (SaveState s)).
Proof. intros <-. reflexivity. Qed.

Ltac saves_go :=
  lazymatch goal with
  | |- saves _ (bind _ _) =>
      eapply saves_bind_eq; [saves_go | intros ?; saves_go | reflexivity]
  | |- saves _ (group _ _) => apply saves_group; saves_go
  | |- saves _ (emit (SaveState _)) =>
      eapply saves_emit_as; cbv [setter_of]; reflexivity
  | |- saves _ (throw _) => apply saves_throw
  | |- saves _ (if ?b then _ else _) => destruct b; saves_go
  | |- saves _ (match ?x with _ => _ end) => destruct x; saves_go
  | |- saves _ _ => apply (saves_quiet any_error); solve [repeat flat_step]
  end.

Lemma saves_ok {A} L (m : M A) t a : saves L m -> m = (t, Ok a) -> setters t = L.
Proof. intros H ->. exact H. Qed.

Lemma saves_prefix {A} L (m : M A) : saves L m -> exists rest, setters (fst m) ++ rest = L.
Proof.
  unfold saves. destruct (snd m); [|auto].
  intros <-. exists []. apply app_nil_r.
Qed.

Lemma preamble_saves w : saves [KInputs] (preamble w).
Proof.
  unfold preamble, runtime_token_acs, docker_info, proxy_configuration.
  saves_go.
Qed.

Lemma prepare_saves w i tok :
  saves [KTmpDir; KBuilder; KBakeDefinition] (prepare w i tok).
Proof. unfold prepare. saves_go. Qed.

Lemma buildRefs_quiet w since b : sat not_a_save any_error (buildRefs w since b).
Proof. unfold buildRefs. repeat sat_step. Qed.

Lemma setters_infos refs : setters (map Info refs) = [].
Proof. induction refs; simpl; auto. Qed.

Lemma build_references_saves w s i :
  saves [KBuildRefs] (build_references w s i).
Proof.
  destruct (buildRefs w s (builder i)) as [t r] eqn:H.
  pose proof (sat_events _ _ _ (buildRefs_quiet w s (builder i))) as Hq.
  rewrite H in Hq. cbn [fst] in Hq. apply setters_none in Hq.
  unfold saves. rewrite (build_references_eq w s i t r H).
  destruct r as [[refs|]|e]; cbn [fst snd setters].
  - rewrite !setters_app, Hq, setters_infos. reflexivity.
  - exfalso. exact (buildRefs_never_undefined _ _ _ _ H).
  - rewrite setters_app, Hq. exists [KBuildRefs]. reflexivity.
Qed.

Lemma passes_saves w s i p : saves [KBuildRefs] (passes w s i p).
Proof.
  unfold passes, print_pass, exec_pass, metadata_output, rethrow.
  eapply saves_bind_eq; [saves_go | intros ? | reflexivity].
  eapply saves_bind_eq; [saves_go | intros ? | reflexivity].
  eapply saves_bind_eq; [saves_go | intros ? | reflexivity].
  eapply saves_bind_eq; [apply build_references_saves | intros ? | reflexivity].
  saves_go.
Qed.

Lemma bake_saves w s i tok :
  saves [KTmpDir; KBuilder; KBakeDefinition; KBuildRefs] (bake w s i tok).
Proof.
  unfold bake.
  eapply saves_bind_eq;
    [apply prepare_saves | intros p; apply passes_saves | reflexivity].
Qed.

(** When the main phase throws the error of line 139, every stage before
    the throw has ended normally. *)
Lemma main_deferred_inv w t e :
  main w = (t, Throw e) -> thrown_by e = ByMain 139 ->
  exists tp s i tok t0 p tq out tm tb,
    preamble w = (tp, Ok (s, i, tok))
    /\ buildx_isAvailable w = Resolves true
    /\ prepare w i tok = (t0, Ok p)
    /\ print_pass w i p = (tq, Ok tt)
    /\ process_bake w = Resolves out
    /\ exec_pass_error out = Some e
    /\ metadata_output w = (tm, Ok tt)
    /\ build_references w s i = (tb, Ok tt).
Proof.
  intros Hm Ho.
  pose proof (deferred_not_from_callee _ Ho) as Hc.
  pose proof (deferred_not_other _ Ho) as Hd.
  unfold main in Hm.
  apply (bind_throw_inv _ _ _ _ _ _ (preamble_sat w) Hc) in Hm.
  destruct Hm as (tp & [[s i] tok] & ? & Hp & Hm & ->).
  apply (bind_throw_inv _ _ _ _ _ _ (call_sat _ _) Hc) in Hm.
  destruct Hm as (ta & avail & ? & Ha & Hm & ->).
  destruct avail; simpl in Hm; [|discriminate].
  assert (Ha' : buildx_isAvailable w = Resolves true).
  { destruct (buildx_isAvailable w) as [[|]|]; simpl in Ha;
      try discriminate; reflexivity. }
  unfold bake in Hm.
  apply (bind_throw_inv _ _ _ _ _ _ (prepare_sat w i tok) Hd) in Hm.
  destruct Hm as (t0 & p & ? & H0 & Hm & ->).
  unfold passes in Hm.
  apply (bind_throw_inv _ _ _ _ _ _ (print_pass_sat w i p) Hc) in Hm.
  destruct Hm as (tq & [] & ? & Hq & Hm & ->).
  apply (bind_throw_inv _ _ _ _ _ _ (exec_pass_sat w i p) Hc) in Hm.
  destruct Hm as (tx & err & ? & Hx & Hm & ->).
  apply exec_pass_ok_inv in Hx. destruct Hx as (out & Hout & -> & ->).
  apply (bind_throw_inv _ _ _ _ _ _ (metadata_output_sat w) Hc) in Hm.
  destruct Hm as (tm & [] & ? & Hmeta & Hm & ->).
  apply (bind_throw_inv _ _ _ _ _ _ (build_references_sat w s i) Hc) in Hm.
  destruct Hm as (tb & [] & ? & Hrefs & Hm & ->).
  unfold rethrow in Hm. destruct (exec_pass_error out) as [e'|] eqn:He;
    [|discriminate].
  injection Hm as _ <-.
  exists tp, s, i, tok, t0, p, tq, out, tm, tb. repeat split; assumption.
Qed.

(** X4: in every run of the main phase the setters of the state helper are
    called at most once each and in the order inputs, temporary directory,
    builder, definition, build references: what a run has saved is a first
    part of that list.  A run that ends normally with buildx available has
    called all five, and so has a run that ends by throwing the error of
    the execution pass. *)
Theorem setters_called_once_in_order (w : World) :
  (exists rest, setters (fst (main w)) ++ rest = all_setters)
  /\ (snd (main w) = Ok tt -> buildx_isAvailable w = Resolves true ->
      setters (fst (main w)) = all_setters)
  /\ (forall e, snd (main w) = Throw e -> thrown_by e = ByMain 139 ->
                setters (fst (main w)) = all_setters).
Proof.
  split; [|split].
  - unfold main.
    pose proof (preamble_saves w) as Hp. unfold saves in Hp.
    destruct (preamble w) as [tp [[[s i] tok]|e]]; cbn [fst snd] in *.
    2:{ destruct Hp as [rest Hp]. exists (rest ++ tl all_setters).
        simpl. rewrite app_assoc, Hp. reflexivity. }
    destruct (buildx_isAvailable w) as [[|]|m]; simpl.
    + pose proof (saves_prefix _ _ (bake_saves w s i tok)) as [rest Hb].
      destruct (bake w s i tok) as [tb rb]. cbn [fst] in *.
      exists rest. simpl. rewrite setters_app. simpl.
      rewrite <- app_assoc, Hb, Hp. reflexivity.
    + exists (tl all_setters). rewrite setters_app, Hp. reflexivity.
    + exists (tl all_setters). rewrite setters_app, Hp. reflexivity.
  - intros Hok Ha. unfold main in *.
    pose proof (preamble_saves w) as Hp. unfold saves in Hp.
    destruct (preamble w) as [tp [[[s i] tok]|e]]; cbn [fst snd] in *;
      [|discriminate].
    rewrite Ha in *. simpl in *.
    pose proof (bake_saves w s i tok) as Hb. unfold saves in Hb.
    destruct (bake w s i tok) as [tb rb]. cbn [fst snd] in *. subst rb.
    rewrite setters_app. simpl. rewrite Hp, Hb. reflexivity.
  - intros e He Ho.
    destruct (main_deferred_inv w (fst (main w)) e) as
      (tp & s & i & tok & t0 & p & tq & out & tm & tb
       & Hp & Ha & H0 & Hq & Hout & Herr & Hm & Hb);
      [rewrite <- He; apply pair_eta | exact Ho |].
    rewrite (main_raises_deferred_error w tp s i tok t0 p tq out e tm tb
               Hp Ha H0 Hq Hout Herr Hm Hb).
    cbn [fst]. repeat (rewrite setters_app; cbn [setters]).
    rewrite (saves_ok _ _ _ _ (preamble_saves w) Hp).
    rewrite (saves_ok _ _ _ _ (prepare_saves w i tok) H0).
    rewrite (saves_ok _ _ _ _ (build_references_saves w s i) Hb).
    assert (Hq' : setters tq = []).
    { apply (saves_ok [] (print_pass w i p) tq tt); [|exact Hq].
      unfold print_pass. saves_go. }
    assert (Hm' : setters tm = []).
    { apply (saves_ok [] (metadata_output w) tm tt); [|exact Hm].
      unfold metadata_output. saves_go. }
    rewrite Hq', Hm'. reflexivity.
Qed.

Lemma setters_called_once_in_order_witness :
  setters (fst (main failing_world)) = all_setters
  /\ setters (fst (main traceless_world)) = all_setters
  /\ exists rest, setters (fst (main bad_plan_world)) ++ rest = all_setters.
Proof.
  split; [|split].
  - exact (proj2 (proj2 (setters_called_once_in_order failing_world))
             boom_error eq_refl eq_refl).
  - exact (proj1 (proj2 (setters_called_once_in_order traceless_world))
             eq_refl eq_refl).
  - exact (proj1 (setters_called_once_in_order bad_plan_world)).
Defined.

(** ** The start of the main phase *)

Lemma never_throws {A} P (m : M A) : sat P never m -> exists a, snd m = Ok a.
Proof.
  intros [_ H]. destruct (snd m) as [a|e]; [eauto|].
  destruct (H e eq_refl).
Qed.

Lemma preamble_resolves w inputs :
  getInputs w = Resolves inputs ->
  preamble w
  = ([Call NewDate; Call GetInputs;
      Debug (js "inputs: " ++ JSON_stringify w (JInputs inputs) 0);
      SaveState (SetInputs inputs)]
       ++ fst (runtime_token_acs w) ++ fst (docker_info w)
       ++ fst (proxy_configuration w),
     Ok (now w, inputs, gitAuthToken_of w inputs)).
Proof.
  intros H. unfold preamble. rewrite H. cbn [call_ext bind emit app].
  destruct (never_throws _ _ (runtime_token_acs_sat w)) as [[] H1].
  destruct (never_throws _ _ (docker_info_sat w)) as [[] H2].
  destruct (never_throws _ _ (proxy_configuration_sat w)) as [[] H3].
  destruct (runtime_token_acs w) as [t1 r1], (docker_info w) as [t2 r2],
    (proxy_configuration w) as [t3 r3].
  cbn [fst snd] in *. subst. cbn [bind ret app]. rewrite app_nil_r.
  reflexivity.
Qed.

Lemma preamble_rejects w msg :
  getInputs w = Rejects msg ->
  preamble w = ([Call NewDate; Call GetInputs],
                Throw {| message := msg; thrown_by := ByCall GetInputs |}).
Proof. intros H. unfold preamble. rewrite H. reflexivity. Qed.

Lemma preamble_ok_inv w tp s i tok :
  preamble w = (tp, Ok (s, i, tok)) ->
  getInputs w = Resolves i /\ s = now w /\ tok = gitAuthToken_of w i.
Proof.
  destruct (getInputs w) as [inputs|msg] eqn:H.
  - rewrite (preamble_resolves w inputs H). intros [= _ <- <- <-]. auto.
  - rewrite (preamble_rejects w msg H). discriminate.
Qed.

Lemma preamble_resolves_saves w inputs :
  getInputs w = Resolves inputs ->
  exists tp,
    preamble w = (tp, Ok (now w, inputs, gitAuthToken_of w inputs))
    /\ setters tp = [KInputs].
Proof.
  intros H. eexists. split; [apply (preamble_resolves w inputs H)|].
  apply (saves_ok [KInputs] (preamble w) _ _ (preamble_saves w)
           (preamble_resolves w inputs H)).
Qed.



(** X6: when buildx is not available the main phase does not throw: it
    reports the failure with [setFailed] and returns.  By then only the
    inputs are saved, and the build engine has not been run. *)
Theorem missing_buildx_fails_without_throwing (w : World) (inputs : Inputs) :
  getInputs w = Resolves inputs ->
  buildx_isAvailable w = Resolves false ->
  (exists tp,
     main w = (tp ++ [Call BuildxIsAvailable; SetFailed buildx_required], Ok tt))
  /\ setters (fst (main w)) = [KInputs]
  /\ Forall not_a_run (fst (main w)).
Proof.
  intros Hi Ha.
  destruct (preamble_resolves_saves w inputs Hi) as (tp & Hp & Hs).
  assert (E : main w
              = (tp ++ [Call BuildxIsAvailable; SetFailed buildx_required], Ok tt)).
  { unfold main. rewrite Hp, Ha. reflexivity. }
  split; [eauto|]. rewrite E. cbn [fst]. split.
  - rewrite setters_app, Hs. reflexivity.
  - apply Forall_app. split; [|repeat constructor].
    pose proof (sat_events _ _ _ (preamble_sat w)) as Hd. rewrite Hp in Hd.
    eapply Forall_impl; [|exact Hd]. intros ? []; assumption.
Qed.

Lemma missing_buildx_fails_without_throwing_witness :
  snd (main no_buildx_world) = Ok tt
  /\ setters (fst (main no_buildx_world)) = [KInputs].
Proof.
  destruct (missing_buildx_fails_without_throwing no_buildx_world
              (sample_inputs None) eq_refl eq_refl) as [[tp E] [Hs _]].
  split; [rewrite E; reflexivity | exact Hs].
Defined.

(** X7: when the definition resolver gives no definition the main phase
    throws [Bake definition not set] from line 113.  The inputs, the
    temporary directory and the builder are saved by then, the definition
    and the references are not, and the build engine has not been run. *)
Theorem missing_definition_throws
  (w : World) (inputs : Inputs) (b : BuilderInfo) :
  getInputs w = Resolves inputs ->
  buildx_isAvailable w = Resolves true ->
  buildx_printVersion w = Resolves tt ->
  builder_inspect w = Resolves b ->
  getDefinition w = Resolves None ->
  snd (main w) = Throw {| message := js "Bake definition not set";
                          thrown_by := ByMain 113 |}
  /\ setters (fst (main w)) = [KInputs; KTmpDir; KBuilder]
  /\ Forall not_a_run (fst (main w)).
Proof.
  intros Hi Ha Hv Hb Hd.
  destruct (preamble_resolves_saves w inputs Hi) as (tp & Hp & Hs).
  rewrite (main_available w tp _ _ _ Hp Ha).
  pose proof (sat_events _ _ _ (prepare_sat w inputs (gitAuthToken_of w inputs)))
    as Hq.
  pose proof (sat_events _ _ _ (preamble_sat w)) as Hd'. rewrite Hp in Hd'.
  unfold bake. revert Hq. unfold prepare. rewrite Hv, Hb, Hd. simpl.
  intros Hq. split; [reflexivity|]. split.
  - rewrite setters_app, Hs. reflexivity.
  - apply Forall_app. split.
    + eapply Forall_impl; [|exact Hd']. intros ? []; assumption.
    + constructor; [exact I|].
      eapply Forall_impl; [|exact Hq]. intros ? []; assumption.
Qed.

Lemma missing_definition_throws_witness :
  snd (main no_definition_world)
  = Throw {| message := js "Bake definition not set"; thrown_by := ByMain 113 |}
  /\ setters (fst (main no_definition_world)) = [KInputs; KTmpDir; KBuilder].
Proof.
  destruct (missing_definition_throws no_definition_world (sample_inputs None)
              {| name := js "X"; driver := js "docker-container" |}
              eq_refl eq_refl eq_refl eq_refl eq_refl) as [H1 [H2 _]].
  split; [exact H1 | exact H2].
Defined.

(** ** The environment of the build engine *)

Section Environment.

Context {V : Type}.

Lemma obj_get_set_same (o : list (jsstring * V)) k v :
  obj_get (obj_set o k v) k = Some v.
Proof.
  induction o as [|[k' v'] o IH]; simpl.
  - rewrite (proj2 (jseqb_eq k k) eq_refl). reflexivity.
  - destruct (jseqb k' k) eqn:E; simpl; rewrite E; auto.
Qed.

Lemma obj_get_set_other (o : list (jsstring * V)) k v k' :
  k' <> k -> obj_get (obj_set o k v) k' = obj_get o k'.
Proof.
  intros Hne. induction o as [|[k0 v0] o IH]; simpl.
  - destruct (jseqb k k') eqn:E; [|reflexivity].
    apply jseqb_eq in E. congruence.
  - destruct (jseqb k0 k) eqn:E; simpl.
    + apply jseqb_eq in E. subst k0.
      destruct (jseqb k k') eqn:E'; [|reflexivity].
      apply jseqb_eq in E'. congruence.
    + rewrite IH. reflexivity.
Qed.

Lemma obj_set_fresh (o : list (jsstring * V)) k v :
  ~ In k (map fst o) -> obj_set o k v = o ++ [(k, v)].
Proof.
  induction o as [|[k' v'] o IH]; simpl; intros H; [reflexivity|].
  destruct (jseqb k' k) eqn:E.
  - apply jseqb_eq in E. tauto.
  - rewrite IH by tauto. reflexivity.
Qed.

(** Copying an object with distinct keys into another object that shares
    none of them appends it. *)
Lemma obj_assign_fresh (t s : list (jsstring * V)) :
  NoDup (map fst (t ++ s)) -> obj_assign t s = t ++ s.
Proof.
  unfold obj_assign. revert t. induction s as [|[k v] s IH]; intros t H; simpl.
  - rewrite app_nil_r. reflexivity.
  - rewrite obj_set_fresh.
    + rewrite IH; rewrite <- app_assoc; [reflexivity | exact H].
    + rewrite map_app in H. simpl in H.
      apply NoDup_remove_2 in H. intros Hin. apply H.
      apply in_or_app. left. exact Hin.
Qed.

End Environment.

Lemma prepare_ok_inv w i tok t0 p :
  prepare w i tok = (t0, Ok p) ->
  buildEnv p
  = obj_assign (obj_assign [] (process_env w)) [(token_var, tok)].
Proof.
  unfold prepare. intros H.
  repeat (apply bind_ok_inv in H; destruct H as (? & ? & ? & ? & H & ?)).
  match type of H with
  | match ?d with _ => _ end = _ => destruct d; [|discriminate]
  end.
  repeat (apply bind_ok_inv in H; destruct H as (? & ? & ? & ? & H & ?)).
  injection H as _ <-. reflexivity.
Qed.

(** Either the build engine is never run, or the steps up to line 123
    succeeded and every run of the engine is one of the two passes over
    what they prepared. *)
Lemma main_runs_prepared w :
  Forall not_a_run (fst (main w))
  \/ exists tp s i tok t0 p,
       preamble w = (tp, Ok (s, i, tok))
       /\ prepare w i tok = (t0, Ok p)
       /\ Forall not_a_run tp /\ Forall not_a_run t0
       /\ fst (main w) = tp ++ Call BuildxIsAvailable :: t0 ++ fst (passes w s i p)
       /\ Forall (run_of i p) (fst (main w)).
Proof.
  destruct (sat_ok _ _ _ (preamble_sat w))
    as [(tp & [[s i] tok] & Hp & Htp) | (tp & e & Hp & Htp & _)].
  2:{ left. unfold main. rewrite Hp. simpl.
      eapply Forall_impl; [|exact Htp]. intros ? []; assumption. }
  assert (Htp' : Forall not_a_run tp).
  { eapply Forall_impl; [|exact Htp]. intros ? []; assumption. }
  destruct (buildx_isAvailable w) as [[|]|msg] eqn:Ha.
  - rewrite (main_available w tp s i tok Hp Ha). cbn [fst].
    unfold bake.
    destruct (sat_ok _ _ _ (prepare_sat w i tok))
      as [(t0 & p & H0 & Ht0) | (t0 & e & H0 & Ht0 & _)]; rewrite H0.
    + assert (Ht0' : Forall not_a_run t0).
      { eapply Forall_impl; [|exact Ht0]. intros ? []; assumption. }
      right. exists tp, s, i, tok, t0, p. rewrite bind_ok. cbn [fst].
      repeat split; try assumption.
      apply Forall_app. split.
      { eapply Forall_impl; [|exact Htp']. apply not_a_run_of. }
      constructor; [exact I|].
      apply Forall_app. split.
      { eapply Forall_impl; [|exact Ht0']. apply not_a_run_of. }
      apply passes_runs.
    + left. rewrite bind_throw. cbn [fst].
      apply Forall_app. split; [exact Htp'|].
      constructor; [exact I|].
      eapply Forall_impl; [|exact Ht0]. intros ? []; assumption.
  - left. unfold main. rewrite Hp, Ha. simpl.
    apply Forall_app. split; [exact Htp' | repeat constructor].
  - left. unfold main. rewrite Hp, Ha. simpl.
    apply Forall_app. split; [exact Htp' | repeat constructor].
Qed.

(** X8: every run of the build engine, print pass or execution pass, gets
    the working directory of the inputs and an environment in which
    [BUILDX_BAKE_GIT_AUTH_TOKEN] is the token of line 31 (the variable of
    the process environment when it is defined, else the input) and every
    other variable is as in the process environment. *)
Theorem build_engine_environment
  (w : World) (c : jsstring) (a : list jsstring) (o : ExecOptions) :
  NoDup (map fst (process_env w)) ->
  In (Call (ExecExec c a o)) (fst (main w))
  \/ In (Call (ExecGetExecOutput c a o)) (fst (main w)) ->
  exists inputs,
    getInputs w = Resolves inputs
    /\ cwd o = workdir inputs
    /\ obj_get (env o) token_var = Some (gitAuthToken_of w inputs)
    /\ forall k, k <> token_var -> obj_get (env o) k = obj_get (process_env w) k.
Proof.
  intros Hnd Hin.
  destruct (main_runs_prepared w)
    as [H | (tp & s & i & tok & t0 & p & Hp & H0 & _ & _ & _ & H)];
    rewrite Forall_forall in H.
  { destruct Hin as [Hin | Hin]; destruct (H _ Hin). }
  apply preamble_ok_inv in Hp. destruct Hp as (Hi & _ & ->).
  apply prepare_ok_inv in H0.
  rewrite (obj_assign_fresh [] (process_env w) Hnd) in H0. simpl app in H0.
  assert (Ho : cwd o = workdir i /\ env o = buildEnv p).
  { destruct Hin as [Hin | Hin]; apply H in Hin; simpl in Hin;
      [unfold print_call in Hin | unfold bake_call in Hin];
      injection Hin as _ _ ->; auto. }
  destruct Ho as [Hcwd Henv]. exists i. rewrite Henv, H0.
  unfold obj_assign. simpl.
  split; [exact Hi|]. split; [exact Hcwd|]. split.
  - apply obj_get_set_same.
  - intros k Hk. apply obj_get_set_other. exact Hk.
Qed.

Lemma build_engine_environment_witness :
  obj_get (buildEnv sample_prepared) token_var = Some (js "token")
  /\ obj_get (buildEnv sample_prepared) (js "HOME") = Some (js "/home/runner").
Proof.
  assert (Hin : In (Call (ExecExec (js "docker")
                            [js "buildx"; js "bake"; js "app"; js "--print"]
                            {| cwd := js "."; env := buildEnv sample_prepared;
                               ignoreReturnCode := false |}))
                   (fst (main traceless_world))).
  { vm_compute. tauto. }
  assert (Hnd : NoDup (map fst (process_env traceless_world))).
  { repeat constructor. simpl. tauto. }
  destruct (build_engine_environment traceless_world _ _ _ Hnd (or_introl Hin))
    as (inputs & Hi & Hcwd & Htok & Hother).
  injection Hi as <-.
  split; [exact Htok|].
  assert (Hne : js "HOME" <> token_var) by discriminate.
  exact (eq_trans (Hother (js "HOME") Hne) eq_refl).
Defined.

(** ** The order of the two passes *)

Lemma print_pass_ok w i p out :
  process_print w = Resolves out -> exitCode out = 0%Z ->
  print_pass w i p
  = ([StartGroup (js "Bake definition"); Call (print_call i p); EndGroup], Ok tt).
Proof.
  intros H Hz. unfold print_pass, exec_outcome. rewrite H, Hz. reflexivity.
Qed.

Lemma print_pass_cannot_start w i p msg :
  process_print w = Rejects msg ->
  print_pass w i p
  = ([StartGroup (js "Bake definition"); Call (print_call i p); EndGroup],
     Throw {| message := msg; thrown_by := ByCall (print_call i p) |}).
Proof. intros H. unfold print_pass, exec_outcome. rewrite H. reflexivity. Qed.

(** X9: the execution pass is attempted only after a print pass that ran
    and exited with code zero; that print pass is in the trace, with the
    command, directory and environment of the execution pass and its
    arguments followed by [--print]. *)
Theorem execution_pass_needs_a_clean_print_pass
  (w : World) (c : jsstring) (a : list jsstring) (o : ExecOptions) :
  In (Call (ExecGetExecOutput c a o)) (fst (main w)) ->
  exists out,
    process_print w = Resolves out
    /\ exitCode out = 0%Z
    /\ In (Call (ExecExec c (a ++ [js "--print"])
                   {| cwd := cwd o; env := env o; ignoreReturnCode := false |}))
          (fst (main w)).
Proof.
  intros Hin.
  destruct (main_runs_prepared w)
    as [H | (tp & s & i & tok & t0 & p & _ & _ & Htp & Ht0 & E & H)];
    rewrite Forall_forall in H.
  { destruct (H _ Hin). }
  pose proof (H _ Hin) as Hb. simpl in Hb. unfold bake_call in Hb.
  injection Hb as -> -> ->. cbn [cwd env].
  rewrite E in Hin |- *.
  assert (Hno : forall t, Forall not_a_run t ->
                          ~ In (Call (bake_call i p)) t).
  { intros t Ht Hi. rewrite Forall_forall in Ht. exact (Ht _ Hi). }
  assert (Hpass : In (Call (bake_call i p)) (fst (passes w s i p))).
  { apply in_app_or in Hin. destruct Hin as [Hin | [Hin | Hin]];
      [destruct (Hno _ Htp Hin) | discriminate Hin |].
    apply in_app_or in Hin. destruct Hin as [Hin | Hin];
      [destruct (Hno _ Ht0 Hin) | exact Hin]. }
  destruct (process_print w) as [out|msg] eqn:Hout.
  - destruct (Z.eq_dec (exitCode out) 0) as [Hz | Hnz].
    + exists out. repeat split; try assumption.
      apply in_or_app. right. right. apply in_or_app. right.
      unfold passes. rewrite (print_pass_ok w i p out Hout Hz).
      rewrite bind_ok. cbn [fst app]. right. left. reflexivity.
    + exfalso. revert Hpass. unfold passes.
      rewrite (print_pass_fails w i p out Hout Hnz), bind_throw.
      simpl. intros [H1 | [H1 | [H1 | []]]]; discriminate H1.
  - exfalso. revert Hpass. unfold passes.
    rewrite (print_pass_cannot_start w i p msg Hout), bind_throw.
    simpl. intros [H1 | [H1 | [H1 | []]]]; discriminate H1.
Qed.

Lemma execution_pass_needs_a_clean_print_pass_witness :
  exists out,
    process_print failing_world = Resolves out /\ exitCode out = 0%Z.
Proof.
  assert (Hin : In (Call (ExecGetExecOutput (js "docker")
                            [js "buildx"; js "bake"; js "app"]
                            {| cwd := js "."; env := buildEnv sample_prepared;
                               ignoreReturnCode := true |}))
                   (fst (main failing_world))).
  { vm_compute. tauto. }
  destruct (execution_pass_needs_a_clean_print_pass failing_world _ _ _ Hin)
    as (out & H1 & H2 & _).
  exists out. split; assumption.
Defined.

(** ** Failures around the resolution of the references *)



(** X11: with a non-empty builder name given, [buildRefs] inspects no
    builder: after reading the metadata it scans the history store under
    the given name and returns the own keys of what the scan gives. *)
Theorem named_builder_is_not_inspected
  (w : World) (since : Z) (b : option jsstring) :
  resolveRefs w = Resolves None ->
  truthy_string b = true ->
  exists name,
    b = Some name
    /\ buildRefs w since b
       = ([Call ResolveRefs; Call (BuildxRefs name since)],
          Ok (Some (map fst (own_properties
                               (Buildx_refs (refs_store w) name since))))).
Proof.
  intros H Hb. destruct b as [[|c b]|]; try discriminate.
  exists (c :: b). split; [reflexivity|]. apply buildRefs_named. exact H.
Qed.

Lemma named_builder_is_not_inspected_witness :
  buildRefs (with_store history_world (refs_store history_world)) 1000
    (Some (js "Y"))
  = ([Call ResolveRefs; Call (BuildxRefs (js "Y") 1000)],
     Ok (Some [js "Y/node0/other"])).
Proof.
  destruct (named_builder_is_not_inspected
              (with_store history_world (refs_store history_world)) 1000
              (Some (js "Y")) eq_refl eq_refl) as (name & Hn & H).
  injection Hn as <-. rewrite H. reflexivity.
Defined.

Lemma passes_from_execution w s i p tq :
  print_pass w i p = (tq, Ok tt) ->
  passes w s i p
  = (tq ++ fst (x <- exec_pass w i p ;; metadata_output w ;;
                build_references w s i ;; rethrow x),
     snd (x <- exec_pass w i p ;; metadata_output w ;;
          build_references w s i ;; rethrow x)).
Proof. intros H. unfold passes. rewrite H, bind_ok. reflexivity. Qed.

(** X12: once the execution pass has run, an error thrown while reading
    the metadata or resolving the references is what the main phase
    throws, and the classified error of the pass is then never raised;
    only when both succeed does the main phase end the way the
    classification says. *)
Theorem resolution_errors_replace_the_deferred_error
  (w : World) (tp : trace) (s : Z) (i : Inputs) (tok : jsstring)
  (t0 : trace) (p : Prepared) (tq : trace) (out : ExecOutput)
  (tm tb : trace) (rm rb : result unit) :
  preamble w = (tp, Ok (s, i, tok)) ->
  buildx_isAvailable w = Resolves true ->
  prepare w i tok = (t0, Ok p) ->
  print_pass w i p = (tq, Ok tt) ->
  process_bake w = Resolves out ->
  metadata_output w = (tm, rm) ->
  build_references w s i = (tb, rb) ->
  main w
  = (tp ++ Call BuildxIsAvailable :: t0 ++ tq ++ Call (bake_call i p) :: tm
        ++ match rm with Ok _ => tb | Throw _ => [] end,
     match rm, rb with
     | Throw e, _ => Throw e
     | Ok _, Throw e => Throw e
     | Ok _, Ok _ =>
         match exec_pass_error out with
         | Some e => Throw e
         | None => Ok tt
         end
     end).
Proof.
  intros Hp Ha H0 Hq Hout Hm Hb.
  rewrite (main_available w tp s i tok Hp Ha).
  unfold bake. rewrite H0, bind_ok.
  rewrite (passes_from_execution w s i p tq Hq).
  rewrite (exec_pass_resolves w i p out Hout). cbn [fst snd].
  rewrite bind_ok, Hm.
  destruct rm as [[]|em].
  - rewrite bind_ok, Hb. destruct rb as [[]|eb].
    + rewrite bind_ok. unfold rethrow.
      destruct (exec_pass_error out); cbn [fst snd throw ret];
        rewrite ?app_nil_r; reflexivity.
    + rewrite bind_throw. reflexivity.
  - rewrite bind_throw. cbn [fst snd]. rewrite app_nil_r. reflexivity.
Qed.

Lemma resolution_errors_replace_the_deferred_error_witness :
  snd (main no_builder_world)
  = Throw {| message := js "no builder"; thrown_by := ByCall (BuilderInspect None) |}
  /\ exec_pass_error failing_output = Some boom_error.
Proof.
  split; [|reflexivity].
  rewrite (resolution_errors_replace_the_deferred_error no_builder_world
             (fst (preamble no_builder_world)) 1000
             (sample_inputs None) (js "token")
             (fst (prepare no_builder_world (sample_inputs None) (js "token")))
             bare_prepared
             (fst (print_pass no_builder_world (sample_inputs None) bare_prepared))
             failing_output
             (fst (metadata_output no_builder_world))
             (fst (build_references no_builder_world 1000 (sample_inputs None)))
             (Ok tt)
             (Throw {| message := js "no builder";
                       thrown_by := ByCall (BuilderInspect None) |})
             eq_refl eq_refl eq_refl eq_refl eq_refl eq_refl eq_refl).
  reflexivity.
Defined.

(** X13: when the build engine cannot be started for the execution pass,
    the main phase throws that error at once: setting [ignoreReturnCode]
    does not cover it, nothing is deferred, and neither the metadata nor
    the references are looked at. *)
Theorem engine_start_failure_is_immediate
  (w : World) (tp : trace) (s : Z) (i : Inputs) (tok : jsstring)
  (t0 : trace) (p : Prepared) (tq : trace) (msg : jsstring) :
  preamble w = (tp, Ok (s, i, tok)) ->
  buildx_isAvailable w = Resolves true ->
  prepare w i tok = (t0, Ok p) ->
  print_pass w i p = (tq, Ok tt) ->
  process_bake w = Rejects msg ->
  main w
  = (tp ++ Call BuildxIsAvailable :: t0 ++ tq ++ [Call (bake_call i p)],
     Throw {| message := msg; thrown_by := ByCall (bake_call i p) |})
  /\ setters (fst (main w)) = [KInputs; KTmpDir; KBuilder; KBakeDefinition].
Proof.
  intros Hp Ha H0 Hq Hout.
  assert (E : main w
    = (tp ++ Call BuildxIsAvailable :: t0 ++ tq ++ [Call (bake_call i p)],
       Throw {| message := msg; thrown_by := ByCall (bake_call i p) |})).
  { rewrite (main_available w tp s i tok Hp Ha).
    unfold bake. rewrite H0, bind_ok.
    rewrite (passes_from_execution w s i p tq Hq).
    unfold exec_pass, exec_outcome. rewrite Hout. reflexivity. }
  split; [exact E|]. rewrite E. cbn [fst].
  repeat (rewrite setters_app; cbn [setters]).
  rewrite (saves_ok _ _ _ _ (preamble_saves w) Hp).
  rewrite (saves_ok _ _ _ _ (prepare_saves w i tok) H0).
  assert (Hq' : setters tq = []).
  { apply (saves_ok [] (print_pass w i p) tq tt); [|exact Hq].
    unfold print_pass. saves_go. }
  rewrite Hq'. reflexivity.
Qed.

Lemma engine_start_failure_is_immediate_witness :
  snd (main no_engine_world)
  = Throw {| message := js "spawn docker ENOENT";
             thrown_by := ByCall (bake_call (sample_inputs None) bare_prepared) |}
  /\ setters (fst (main no_engine_world))
     = [KInputs; KTmpDir; KBuilder; KBakeDefinition].
Proof.
  destruct (engine_start_failure_is_immediate no_engine_world
              (fst (preamble no_engine_world)) 1000
              (sample_inputs None) (js "token")
              (fst (prepare no_engine_world (sample_inputs None) (js "token")))
              bare_prepared
              (fst (print_pass no_engine_world (sample_inputs None) bare_prepared))
              (js "spawn docker ENOENT")
              eq_refl eq_refl eq_refl eq_refl eq_refl) as [E Hs].
  split; [rewrite E; reflexivity | exact Hs].
Defined.

(** ** Every event of the post phase *)

Lemma call_ext_ok_inv {A} c (o : outcome A) t a :
  call_ext c o = (t, Ok a) -> o = Resolves a.
Proof. destruct o; simpl; [intros [= _ <-]; reflexivity | discriminate]. Qed.

Lemma sat_try_catch_val {A} P E (m : M A) (h : Error -> M A) :
  Forall P (fst m) -> (forall t e, m = (t, Throw e) -> sat P E (h e)) ->
  sat P E (try_catch m h).
Proof.
  intros Hm Hh. destruct m as [t [a|e]]; simpl in *.
  - split; [exact Hm | discriminate].
  - destruct (Hh t e eq_refl) as [Hhe Hhr]. destruct (h e) as [t' r]; simpl in *.
    split; [apply Forall_app; auto | exact Hhr].
Qed.

Lemma summary_chain_events st w :
  st_buildRefs st <> [] ->
  is_cloud (st_builder st) = false ->
  snd (summary_disabled w) = Ok false ->
  sat (post_event_ok st w) any_error (summary_chain st w).
Proof.
  intros Hr Hc Hd. unfold summary_chain.
  apply sat_bind_val.
  { apply sat_call; [|intros ?; exact I]. simpl. auto. }
  intros t e He. apply call_ext_ok_inv in He.
  sat_step; [sat_step|].
  apply sat_bind_val.
  { apply sat_call; [|intros ?; exact I]. simpl. eauto. }
  intros t' u Hu. apply call_ext_ok_inv in Hu.
  apply sat_call; [|intros ?; exact I]. simpl. eauto.
Qed.

Lemma post_events st w : sat (post_event_ok st w) any_error (post st w).
Proof.
  unfold post. apply sat_bind.
  - unfold build_summary.
    destruct (st_buildRefs st) as [|r refs] eqn:Hrefs; [sat_step|].
    cbn [length Nat.ltb Nat.leb].
    assert (Hne : st_buildRefs st <> []) by (rewrite Hrefs; discriminate).
    apply sat_group; [exact I | exact I |].
    apply sat_bind_val.
    + unfold summary_disabled.
      destruct (getenv (post_env w) "DOCKER_BUILD_NO_SUMMARY") as [[|c v]|] eqn:Hv;
        simpl; try sat_step.
      apply sat_call; [|intros ?; exact I].
      simpl. rewrite Hv. repeat split; [discriminate | exact Hne].
    + intros t disabled Hd.
      destruct disabled; [sat_step|].
      destruct (is_cloud (st_builder st)) eqn:Hc; [sat_step|].
      apply sat_try_catch_val.
      * apply (sat_events _ any_error).
        apply summary_chain_events; [exact Hne | exact Hc | rewrite Hd; reflexivity].
      * intros t' e He. apply sat_emit. simpl. exists e.
        rewrite He. auto.
  - intros _. unfold remove_tmpDir.
    destruct (st_tmpDir st) as [|c d] eqn:Hd; [sat_step|].
    cbn [length Nat.ltb Nat.leb].
    apply sat_group; [exact I | exact I |].
    apply sat_call; [|intros ?; exact I].
    simpl. rewrite Hd. repeat split. discriminate.
Qed.

(** X14: in the post phase the records are exported only for a non-empty
    list of saved references, and then for exactly that list, with the
    summary not switched off and a builder that is not of the cloud
    driver; an upload happens only after a successful export, of the file
    the export names, as [application/gzip] and kept 90 days; the summary
    is written only after both succeeded, from their results and the saved
    inputs and definition. *)
Theorem summary_chain_is_guarded_and_ordered (st : PersistedState) (w : PostWorld) :
  (forall refs,
     In (Call (HistoryExport refs)) (fst (post st w)) ->
     refs = st_buildRefs st /\ refs <> []
     /\ is_cloud (st_builder st) = false
     /\ snd (summary_disabled w) = Ok false)
  /\ (forall f m r,
        In (Call (UploadArtifact f m r)) (fst (post st w)) ->
        exists e, history_export w = Resolves e
                  /\ f = dockerbuildFilename e
                  /\ m = js "application/gzip" /\ r = 90%Z)
  /\ (forall o,
        In (Call (WriteBuildSummary o)) (fst (post st w)) ->
        exists e u, history_export w = Resolves e
                    /\ uploadArtifact w = Resolves u
                    /\ o = {| sum_exportRes := e;
                              sum_uploadRes := u;
                              sum_inputs := st_inputs st;
                              sum_bakeDefinition := st_bakeDefinition st |}).
Proof.
  pose proof (sat_events _ _ _ (post_events st w)) as H.
  rewrite Forall_forall in H.
  split; [|split]; intros; exact (H _ ltac:(eassumption)).
Qed.

Lemma summary_chain_is_guarded_and_ordered_witness :
  exists e, history_export
              (custom_post_world [] (Resolves false) (Resolves sample_export)
                 (Rejects (js "upload failed")) (Resolves tt) (Resolves tt))
            = Resolves e
            /\ js "/tmp/x/rec.dockerbuild" = dockerbuildFilename e.
Proof.
  destruct (proj1 (proj2 (summary_chain_is_guarded_and_ordered
                            (sample_state [js "abc123"] (js "/tmp/x"))
                            (custom_post_world [] (Resolves false)
                               (Resolves sample_export)
                               (Rejects (js "upload failed"))
                               (Resolves tt) (Resolves tt))))
              (js "/tmp/x/rec.dockerbuild") (js "application/gzip") 90%Z)
    as (e & He & Hf & _).
  - vm_compute. tauto.
  - exists e. split; assumption.
Defined.

(** X15: the post phase removes nothing but the saved temporary directory,
    always recursively and never for an empty path; it logs a warning only
    with the message of a failure of the export, upload and summary chain;
    it saves no state, sets no output and does not call [setFailed]. *)
Theorem post_touches_only_what_was_saved (st : PersistedState) (w : PostWorld) :
  (forall d r,
     In (Call (RmSync d r)) (fst (post st w)) ->
     d = st_tmpDir st /\ d <> [] /\ r = true)
  /\ (forall m,
        In (Warning m) (fst (post st w)) ->
        exists e, snd (summary_chain st w) = Throw e /\ message e = m)
  /\ setters (fst (post st w)) = []
  /\ (forall k v, ~ In (SetOutput k v) (fst (post st w)))
  /\ (forall m, ~ In (SetFailed m) (fst (post st w))).
Proof.
  pose proof (sat_events _ _ _ (post_events st w)) as H.
  split; [|split; [|split; [|split]]].
  - rewrite Forall_forall in H. intros d r Hin. exact (H _ Hin).
  - rewrite Forall_forall in H. intros m Hin. exact (H _ Hin).
  - apply setters_none. eapply Forall_impl; [|exact H].
    intros [| | | | | | | |]; simpl; tauto.
  - rewrite Forall_forall in H. intros k v Hin. exact (H _ Hin).
  - rewrite Forall_forall in H. intros m Hin. exact (H _ Hin).
Qed.

(** X16: when the switch of line 170 is set to a text that [parseBool]
    rejects, the post phase throws that error from inside the summary
    group, and the saved temporary directory is not removed. *)
Theorem bad_summary_switch_skips_the_cleanup
  (st : PersistedState) (w : PostWorld) (v msg : jsstring) :
  st_buildRefs st <> [] ->
  getenv (post_env w) "DOCKER_BUILD_NO_SUMMARY" = Some v ->
  v <> [] ->
  parseBool w v = Rejects msg ->
  post st w
  = ([StartGroup (js "Generating build summary"); Call (ParseBool v); EndGroup],
     Throw {| message := msg; thrown_by := ByCall (ParseBool v) |})
  /\ forall d r, ~ In (Call (RmSync d r)) (fst (post st w)).
Proof.
  intros Hr Hv Hne Hp.
  assert (E : post st w
    = ([StartGroup (js "Generating build summary"); Call (ParseBool v); EndGroup],
       Throw {| message := msg; thrown_by := ByCall (ParseBool v) |})).
  { unfold post, build_summary, summary_disabled.
    destruct (st_buildRefs st); [congruence|].
    rewrite Hv. destruct v; [congruence|]. simpl. rewrite Hp. reflexivity. }
  split; [exact E|]. rewrite E. simpl.
  intros d r [H | [H | [H | []]]]; discriminate H.
Qed.

Lemma bad_summary_switch_skips_the_cleanup_witness :
  post (sample_state [js "abc123"] (js "/tmp/x"))
       (custom_post_world [(js "DOCKER_BUILD_NO_SUMMARY", js "yes")]
          (Rejects (js "parseBool syntax error: yes"))
          (Resolves sample_export) (Resolves sample_upload)
          (Resolves tt) (Resolves tt))
  = ([StartGroup (js "Generating build summary"); Call (ParseBool (js "yes"));
      EndGroup],
     Throw {| message := js "parseBool syntax error: yes";
              thrown_by := ByCall (ParseBool (js "yes")) |}).
Proof.
  exact (proj1 (bad_summary_switch_skips_the_cleanup
                  (sample_state [js "abc123"] (js "/tmp/x"))
                  (custom_post_world [(js "DOCKER_BUILD_NO_SUMMARY", js "yes")]
                     (Rejects (js "parseBool syntax error: yes"))
                     (Resolves sample_export) (Resolves sample_upload)
                     (Resolves tt) (Resolves tt))
                  (js "yes") (js "parseBool syntax error: yes")
                  ltac:(discriminate) eq_refl ltac:(discriminate) eq_refl)).
Defined.

(** ** Every event of the main phase *)









Lemma post_touches_only_what_was_saved_witness :
  js "/tmp/x" = st_tmpDir (sample_state [js "abc123"] (js "/tmp/x"))
  /\ js "/tmp/x" <> [] /\ true = true.
Proof.
  apply (proj1 (post_touches_only_what_was_saved
                  (sample_state [js "abc123"] (js "/tmp/x"))
                  (sample_post_world (Rejects (js "export failed"))))
           (js "/tmp/x") true).
  vm_compute. tauto.
Defined.

(** ** The loop over the scan result *)

(** X18: the loop of lines 224-229 returns exactly the own keys of the
    object it walks, in the order of enumeration; every key it returns
    passes the [hasOwnProperty] test, and a key that is only inherited is
    never returned. *)
Theorem loop_returns_own_keys_only {V : Type} (res : object V) :
  own_keys res = map fst (own_properties res)
  /\ (forall k, In k (own_keys res) -> hasOwnProperty res k = true)
  /\ (forall k, In k (proto_keys res) -> hasOwnProperty res k = false ->
                ~ In k (own_keys res)).
Proof.
  assert (H : forall k, In k (own_keys res) -> hasOwnProperty res k = true).
  { intros k Hk. rewrite own_keys_own in Hk. unfold hasOwnProperty.
    apply existsb_exists. exists k. split; [exact Hk|].
    apply jseqb_eq. reflexivity. }
  split; [apply own_keys_own|]. split; [exact H|].
  intros k _ Hf Hin. rewrite (H k Hin) in Hf. discriminate.
Qed.

Lemma loop_returns_own_keys_only_witness :
  own_keys {| own_properties := [(js "X/node0/new", 1%Z); (js "X/node0/old", 2%Z)];
              proto_keys := [js "toString"; js "X/node0/new"] |}
  = [js "X/node0/new"; js "X/node0/old"].
Proof.
  exact (proj1 (loop_returns_own_keys_only
                  {| own_properties := [(js "X/node0/new", 1%Z);
                                        (js "X/node0/old", 2%Z)];
                     proto_keys := [js "toString"; js "X/node0/new"] |})).
Defined.
